(** * Euchre server: action pipeline, phase machine and scoring

    A shallow embedding of the Python sources [core/state.py],
    [core/logic.py], [euchre/setup.py], [euchre/actions.py],
    [euchre/validators.py], [euchre/rules.py] and [euchre/executors.py],
    with the registry of [core/net.py].

    Conventions of the embedding.
    - Every method body is translated statement by statement into a small
      state-and-exception monad: a mutation made before a [raise] stays
      in the state, as in Python.
    - Module wiring is taken as intended: a class that a module names
      at its top level without importing it ([Action] and [Broadcast]
      in the executors, [is_player_action] in the router, the executor
      classes shadowed by the rule classes of the same name) stands for
      the one definition of that name in the repository.
    - Inside a method body nothing is repaired.  A name that is not
      bound when its line runs ([EndGame] in [CorrectPhase.validate]),
      an attribute the object does not have ([self.Card] on a deck,
      [game.deck] on a game, [team_id] on a player, [peek] on a board),
      an index on an object without [__getitem__] ([connection[1]]), a
      missing key, an index out of range and a call with too many
      arguments all raise, as in Python, and what follows on that path
      is not executed.
    - Player objects define no [__eq__], so they are compared by
      identity.  The seating list [game.players] is never mutated after
      construction, so a reference to a Player is its seat index there.
    - The connection manager is the registry [connections] of
      (id, Connection) pairs; a Connection is an opaque object. *)

From stdpp Require Import gmap strings list fin_maps.
From Stdlib Require Import ZArith DecimalString.
Local Open Scope Z_scope.

(** ** Python prelude: exceptions, outcomes and the monad *)

Module Py.

Inductive Exn : Type :=
| ValueError (msg : string)
| KeyError (key : string)
| IndexError (msg : string)
| AttributeError (msg : string)
| TypeError (msg : string)
| NameError (msg : string)
| ZeroDivisionError (msg : string).

Inductive Outcome (A : Type) : Type :=
| Ret (a : A)
| Raise (e : Exn).
Arguments Ret {A} a.
Arguments Raise {A} e.

(** A computation over a mutable state [S]: the final state is returned
    also when an exception is raised. *)
Definition M (S A : Type) : Type := S -> S * Outcome A.

Definition ret {S A} (a : A) : M S A := fun s => (s, Ret a).
Definition raise {S A} (e : Exn) : M S A := fun s => (s, Raise e).
Definition bind {S A B} (m : M S A) (k : A -> M S B) : M S B :=
  fun s => match m s with
           | (s', Ret a) => k a s'
           | (s', Raise e) => (s', Raise e)
           end.
Definition get {S} : M S S := fun s => (s, Ret s).
Definition gets {S A} (f : S -> A) : M S A := fun s => (s, Ret (f s)).
Definition modify {S} (f : S -> S) : M S unit := fun s => (f s, Ret tt).
Definition lift {S A} (o : Outcome A) : M S A := fun s => (s, o).

(** [try: m  except ValueError as e: h e] *)
Definition try_except_ValueError {S A} (m : M S A) (h : string -> M S A) : M S A :=
  fun s => match m s with
           | (s', Raise (ValueError msg)) => h msg s'
           | r => r
           end.

(** [for x in l: body x] *)
Fixpoint for_each {S A} (l : list A) (body : A -> M S unit) : M S unit :=
  match l with
  | [] => ret tt
  | x :: l' => bind (body x) (fun _ => for_each l' body)
  end.

(** [str(n)] for an int. *)
Definition str_int (z : Z) : string := NilZero.string_of_int (Z.to_int z).

(** [max(l, key=key)]: the first element whose key is not exceeded;
    [ValueError] on an empty sequence. *)
Fixpoint max_from {A} (key : A -> Z) (best : A) (l : list A) : A :=
  match l with
  | [] => best
  | x :: l' => if key best <? key x then max_from key x l' else max_from key best l'
  end.

Definition max_by {A} (key : A -> Z) (l : list A) : Outcome A :=
  match l with
  | [] => Raise (ValueError "max() arg is an empty sequence")
  | x :: l' => Ret (max_from key x l')
  end.

(** [l.index(x)]: position of the first element equal to [x]. *)
Fixpoint index_from {A} (eqb : A -> A -> bool) (x : A) (l : list A) (i : nat) : option nat :=
  match l with
  | [] => None
  | y :: l' => if eqb y x then Some i else index_from eqb x l' (S i)
  end.

(** [l.remove(x)]: drops the first element equal to [x]. *)
Fixpoint remove_first {A} (eqb : A -> A -> bool) (x : A) (l : list A) : list A :=
  match l with
  | [] => []
  | y :: l' => if eqb y x then l' else y :: remove_first eqb x l'
  end.

(** [d[k] += v] on a dict with int keys: [KeyError] when [k] is absent. *)
Definition dict_iadd (d : gmap Z Z) (k v : Z) : Outcome (gmap Z Z) :=
  match d !! k with
  | Some old => Ret (<[k := old + v]> d)
  | None => Raise (KeyError (str_int k))
  end.

(** [d[k]] *)
Definition dict_get (d : gmap Z Z) (k : Z) : Outcome Z :=
  match d !! k with
  | Some v => Ret v
  | None => Raise (KeyError (str_int k))
  end.

End Py.
Import Py.

Declare Scope py_scope.
Delimit Scope py_scope with py.
Notation "'let*' x ':=' m 'in' k" := (bind m (fun x => k))
  (at level 10, x name, m at level 100, k at level 200) : py_scope.
Notation "m ';;' k" := (bind m (fun _ => k))
  (at level 100, k at level 200, right associativity) : py_scope.
Local Open Scope py_scope.

(** ** core/state.py: cards, decks, players, the board *)

Record Card : Type := mkCard { rank : string; suit : string }.

(** [Card.__eq__]: same rank and same suit. *)
Definition Card_eq (a b : Card) : bool :=
  String.eqb (rank a) (rank b) && String.eqb (suit a) (suit b).

(** [Card.__str__] *)
Definition Card_str (c : Card) : string := rank c +:+ " of " +:+ suit c.

Module Deck.

Definition RANKS : list string :=
  ["2"; "3"; "4"; "5"; "6"; "7"; "8"; "9"; "10"; "J"; "Q"; "K"; "A"].
Definition SUITS : list string := ["Hearts"; "Diamonds"; "Clubs"; "Spades"].

(** The body of [collect] over the class's own [RANKS]: [self.cards]
    is emptied, then the two nested loops append a card per suit and
    rank, suits outermost. *)
Definition collect_with (ranks : list string) (self_cards : list Card) : list Card :=
  let self_cards := [] in
  foldl (fun cards s => foldl (fun cards r => cards ++ [mkCard r s]) cards ranks)
        self_cards SUITS.

(** [Deck.collect] of the base class. *)
Definition collect (self_cards : list Card) : list Card := collect_with RANKS self_cards.

(** [Deck()]: [__init__] calls [self.collect()]. *)
Definition init : list Card := collect [].

(** One Fisher-Yates step: [cards[i], cards[j] = cards[j], cards[i]]. *)
Definition swap (cards : list Card) (i j : nat) : list Card :=
  match cards !! i, cards !! j with
  | Some ci, Some cj => <[j := ci]> (<[i := cj]> cards)
  | _, _ => cards
  end.

(** [Deck.shuffle]: for i from n-1 down to 1, swap position i with a
    position drawn in [0, i].  [draw k] is the value [random.randint]
    returns at its k-th call, reduced into the requested range. *)
Fixpoint shuffle_from (draw : nat -> nat) (k : nat) (i : nat) (cards : list Card) : list Card :=
  match i with
  | O => cards
  | S i' => shuffle_from draw (S k) i' (swap cards i (draw k `mod` S i)%nat)
  end.

Definition shuffle (draw : nat -> nat) (k : nat) (cards : list Card) : list Card :=
  shuffle_from draw k (length cards - 1)%nat cards.

(** [Deck.deal]: pops the card at index 0. *)
Definition deal (cards : list Card) : Outcome (Card * list Card) :=
  match cards with
  | [] => Raise (ValueError "Cannot deal from an empty deck")
  | c :: rest => Ret (c, rest)
  end.

(** [Deck.peek]: the card at index -1. *)
Definition peek (cards : list Card) : Outcome Card :=
  match last cards with
  | None => Raise (ValueError "Cannot peek at an empty deck")
  | Some c => Ret c
  end.

End Deck.

Module EuchreDeck.

Definition RANKS : list string := ["9"; "10"; "J"; "Q"; "K"; "A"].

(** [self.Card]: neither [EuchreDeck] nor [Deck] has such an
    attribute. *)
Definition self_Card : M (list Card) (string -> string -> Card) :=
  raise (AttributeError "'EuchreDeck' object has no attribute 'Card'").

(** [EuchreDeck.collect], over the card list of the deck: the list is
    emptied, then the two loops build each card with [self.Card]. *)
Definition collect : M (list Card) unit :=
  modify (fun _ => []) ;;
  for_each Deck.SUITS (fun suit =>
    for_each RANKS (fun rank =>
      let* make := self_Card in
      modify (fun cards => cards ++ [make rank suit]))).

(** [EuchreDeck()]: [Deck.__init__] calls [self.collect()], which
    dispatches to the override. *)
Definition init : Outcome (list Card) :=
  match collect [] with
  | (cards, Ret _) => Ret cards
  | (_, Raise e) => Raise e
  end.

End EuchreDeck.

(** [Player]: [__init__] sets [id] and [hand], and nothing in the
    sources gives a player any other attribute. *)
Record Player : Type := mkPlayer {
  id : string;
  hand : list Card
}.

(** [Player.__str__] *)
Definition Player_str (p : Player) : string :=
  "Player " +:+ id p +:+ " with " +:+ str_int (Z.of_nat (length (hand p))) +:+ " cards".

(** [Board.Slot] *)
Record Slot : Type := mkSlot { cards : list Card; face_up : bool }.

Definition Slot_add_card (c : Card) (s : Slot) : Slot :=
  {| cards := cards s ++ [c]; face_up := face_up s |}.

(** ** euchre/setup.py: phases *)

Inductive Phase : Type :=
| SETUP | DEAL | PICKUP_CARD | PICK_SUIT | DISCARD | PLAY
| SCORE_TRICK | SCORE_GAME | END_GAME.

Definition Phase_eqb (a b : Phase) : bool :=
  match a, b with
  | SETUP, SETUP | DEAL, DEAL | PICKUP_CARD, PICKUP_CARD
  | PICK_SUIT, PICK_SUIT | DISCARD, DISCARD | PLAY, PLAY
  | SCORE_TRICK, SCORE_TRICK | SCORE_GAME, SCORE_GAME
  | END_GAME, END_GAME => true
  | _, _ => false
  end.

(** [Connection]: an object with no [__getitem__], [__bool__] or
    [__len__]; only its identity matters here. *)
Inductive Connection : Type := Conn (handle : nat).

(** ** The mutable aggregate: game, board and connections

    [EuchreGame] (with the [players] of [Game]), the [Board] with its
    slots and the deck [Game.__init__] hands to it ([board.deck]; the
    game object itself gets no [deck] attribute), and the registry of
    the connection manager. *)

Record World : Type := mkWorld {
  players : list Player;
  deck : list Card;
  phase : Phase;
  score : gmap Z Z;
  hand_score : gmap Z Z;
  calling_team : option Z;
  renegs : list (Z * string);
  current_dealer : option nat;
  current_player : option nat;
  blocking_on_discard : list (option nat);
  trump_suit : option string;
  slots : gmap string Slot;
  connections : list (string * Connection)
}.

Definition with_players (x : list Player) (w : World) : World :=
  mkWorld x (deck w) (phase w) (score w) (hand_score w) (calling_team w)
    (renegs w) (current_dealer w) (current_player w) (blocking_on_discard w)
    (trump_suit w) (slots w) (connections w).
Definition with_deck (x : list Card) (w : World) : World :=
  mkWorld (players w) x (phase w) (score w) (hand_score w) (calling_team w)
    (renegs w) (current_dealer w) (current_player w) (blocking_on_discard w)
    (trump_suit w) (slots w) (connections w).
Definition with_phase (x : Phase) (w : World) : World :=
  mkWorld (players w) (deck w) x (score w) (hand_score w) (calling_team w)
    (renegs w) (current_dealer w) (current_player w) (blocking_on_discard w)
    (trump_suit w) (slots w) (connections w).
Definition with_score (x : gmap Z Z) (w : World) : World :=
  mkWorld (players w) (deck w) (phase w) x (hand_score w) (calling_team w)
    (renegs w) (current_dealer w) (current_player w) (blocking_on_discard w)
    (trump_suit w) (slots w) (connections w).
Definition with_hand_score (x : gmap Z Z) (w : World) : World :=
  mkWorld (players w) (deck w) (phase w) (score w) x (calling_team w)
    (renegs w) (current_dealer w) (current_player w) (blocking_on_discard w)
    (trump_suit w) (slots w) (connections w).
Definition with_calling_team (x : option Z) (w : World) : World :=
  mkWorld (players w) (deck w) (phase w) (score w) (hand_score w) x
    (renegs w) (current_dealer w) (current_player w) (blocking_on_discard w)
    (trump_suit w) (slots w) (connections w).
Definition with_renegs (x : list (Z * string)) (w : World) : World :=
  mkWorld (players w) (deck w) (phase w) (score w) (hand_score w) (calling_team w)
    x (current_dealer w) (current_player w) (blocking_on_discard w)
    (trump_suit w) (slots w) (connections w).
Definition with_current_dealer (x : option nat) (w : World) : World :=
  mkWorld (players w) (deck w) (phase w) (score w) (hand_score w) (calling_team w)
    (renegs w) x (current_player w) (blocking_on_discard w)
    (trump_suit w) (slots w) (connections w).
Definition with_current_player (x : option nat) (w : World) : World :=
  mkWorld (players w) (deck w) (phase w) (score w) (hand_score w) (calling_team w)
    (renegs w) (current_dealer w) x (blocking_on_discard w)
    (trump_suit w) (slots w) (connections w).
Definition with_blocking_on_discard (x : list (option nat)) (w : World) : World :=
  mkWorld (players w) (deck w) (phase w) (score w) (hand_score w) (calling_team w)
    (renegs w) (current_dealer w) (current_player w) x
    (trump_suit w) (slots w) (connections w).
Definition with_trump_suit (x : option string) (w : World) : World :=
  mkWorld (players w) (deck w) (phase w) (score w) (hand_score w) (calling_team w)
    (renegs w) (current_dealer w) (current_player w) (blocking_on_discard w)
    x (slots w) (connections w).
Definition with_slots (x : gmap string Slot) (w : World) : World :=
  mkWorld (players w) (deck w) (phase w) (score w) (hand_score w) (calling_team w)
    (renegs w) (current_dealer w) (current_player w) (blocking_on_discard w)
    (trump_suit w) x (connections w).
Definition with_connections (x : list (string * Connection)) (w : World) : World :=
  mkWorld (players w) (deck w) (phase w) (score w) (hand_score w) (calling_team w)
    (renegs w) (current_dealer w) (current_player w) (blocking_on_discard w)
    (trump_suit w) (slots w) x.

Abbreviation Cmd := (M World).

(** *** Attribute access on an optional player reference *)

(** [obj.attr] where [obj] may be [None] or a player of the seating. *)
Definition attr {A} (f : Player -> A) (name : string) (o : option nat) : Cmd A :=
  fun w =>
    match o with
    | None => (w, Raise (AttributeError ("'NoneType' object has no attribute '" +:+ name +:+ "'")))
    | Some r =>
        match players w !! r with
        | Some p => (w, Ret (f p))
        | None => (w, Raise (AttributeError "dangling player reference"))
        end
    end.

(** [player.team_id] on a player of the seating or on [None]: no
    object has that attribute. *)
Definition team_id_attr (o : option nat) : Cmd Z :=
  match o with
  | None => raise (AttributeError "'NoneType' object has no attribute 'team_id'")
  | Some _ => raise (AttributeError "'Player' object has no attribute 'team_id'")
  end.

(** [str(player)] inside an f-string, [None] included. *)
Definition fmt_player (w : World) (o : option nat) : string :=
  match o with
  | None => "None"
  | Some r => match players w !! r with
              | Some p => Player_str p
              | None => "None"
              end
  end.

(** *** core/state.py: [Game.get_player] *)

(** [next((player for player in self.players if player.id == player_id), None)]:
    the first seat whose player has that id. *)
Fixpoint first_with_id (ps : list Player) (player_id : string) (seat : nat) : option nat :=
  match ps with
  | [] => None
  | p :: rest =>
      if String.eqb (id p) player_id then Some seat
      else first_with_id rest player_id (S seat)
  end.

Definition get_player (w : World) (player_id : string) : option nat :=
  first_with_id (players w) player_id 0.

(** [self.players.index(player)], with identity as equality. *)
Definition players_index (o : option nat) : Cmd nat :=
  fun w =>
    match o with
    | Some r => if bool_decide (r < length (players w))%nat then (w, Ret r)
                else (w, Raise (ValueError "x not in list"))
    | None => (w, Raise (ValueError "None is not in list"))
    end.

(** [self.players[i]] *)
Definition players_at (i : nat) : Cmd (option nat) :=
  fun w => if bool_decide (i < length (players w))%nat then (w, Ret (Some i))
           else (w, Raise (IndexError "list index out of range")).

(** [len(game.players)] followed by [% len(game.players)]. *)
Definition next_index (i : nat) : Cmd nat :=
  fun w => if bool_decide (length (players w) = 0%nat)
           then (w, Raise (ZeroDivisionError "integer modulo by zero"))
           else (w, Ret ((i + 1) `mod` length (players w))%nat).

(** *** euchre/setup.py: the mutators of [EuchreGame] *)

Definition set_phase (p : Phase) : Cmd unit := modify (with_phase p).
Definition set_dealer (o : option nat) : Cmd unit := modify (with_current_dealer o).
Definition set_current_player (o : option nat) : Cmd unit := modify (with_current_player o).

(** Equality of two optional player references ([==] on objects that are
    Players or [None]). *)
Definition ref_eqb (a b : option nat) : bool := bool_decide (a = b).

Definition add_reneg (team : Z) (reason : string) (w : World) : World :=
  with_renegs (renegs w ++ [(team, reason)]) w.

Definition clear_renegs (w : World) : World := with_renegs [] w.

(** [add_blocking_discard] and [remove_blocking_discard]: the argument
    is whatever the caller passes, a player or [None]. *)
Definition add_blocking_discard (o : option nat) : Cmd unit :=
  fun w => if bool_decide (o ∈ blocking_on_discard w) then (w, Ret tt)
           else (with_blocking_on_discard (blocking_on_discard w ++ [o]) w, Ret tt).

Definition remove_blocking_discard (o : option nat) : Cmd unit :=
  fun w => if bool_decide (o ∈ blocking_on_discard w)
           then (with_blocking_on_discard
                   (remove_first ref_eqb o (blocking_on_discard w)) w, Ret tt)
           else (w, Ret tt).

Definition is_blocked (w : World) : bool :=
  bool_decide (0 < length (blocking_on_discard w))%nat.

(** [EuchreGame(deck, players)] together with the slot each player gets
    in [_create_game] and a registry with a connection per player. *)
Definition new_game (d : list Card) (ps : list Player) : World :=
  {| players := ps;
     deck := d;
     phase := SETUP;
     score := <[2 := 0]> (<[1 := 0]> ∅);
     hand_score := <[2 := 0]> (<[1 := 0]> ∅);
     calling_team := None;
     renegs := [];
     current_dealer := None;
     current_player := None;
     blocking_on_discard := [];
     trump_suit := None;
     slots := foldl (fun m p => <[id p := mkSlot [] true]> m) ∅ ps;
     connections := imap (fun i p => (id p, Conn i)) ps |}.

(** ** core/logic.py: actions, results, rules and the router *)

(** The class of an action object, for the [isinstance] tests of the
    validators: [Action] itself or one of its subclasses in
    euchre/actions.py. *)
Inductive ActionClass : Type :=
| Cls_Action | Cls_Play | Cls_Discard | Cls_CallReneg | Cls_CallPickup
| Cls_Pass | Cls_CallSuit | Cls_EndGame | Cls_StartGame.

Definition ActionClass_eqb (a b : ActionClass) : bool :=
  match a, b with
  | Cls_Action, Cls_Action | Cls_Play, Cls_Play | Cls_Discard, Cls_Discard
  | Cls_CallReneg, Cls_CallReneg | Cls_CallPickup, Cls_CallPickup
  | Cls_Pass, Cls_Pass | Cls_CallSuit, Cls_CallSuit
  | Cls_EndGame, Cls_EndGame | Cls_StartGame, Cls_StartGame => true
  | _, _ => false
  end.

(** The payload dict: each key the sources read, present or absent, with
    the type of value the action constructors store under it. *)
Record Payload : Type := mkPayload {
  p_card : option Card;
  p_player_id : option string;
  p_show : option bool;
  p_message : option string;
  p_broadcast : option string;
  p_dealer_id : option string;
  p_suit : option string;
  p_trick_number : option Z;
  p_team_id : option Z
}.

Definition empty_payload : Payload :=
  mkPayload None None None None None None None None None.

(** The dataclass [Action]: its two fields, and the class it was built as. *)
Record Action : Type := mkAction {
  cls : ActionClass;
  name : string;
  payload : Payload
}.

(** [action.payload[key]] *)
Definition item {S A} (field : Payload -> option A) (key : string) (a : Action) : M S A :=
  match field (payload a) with
  | Some v => ret v
  | None => raise (KeyError key)
  end.

(** [getattr(action, attr)] for a string-valued attribute: the only one
    an [Action] has is [name]. *)
Definition ActionClass_name (c : ActionClass) : string :=
  match c with
  | Cls_Action => "Action" | Cls_Play => "Play" | Cls_Discard => "Discard"
  | Cls_CallReneg => "CallReneg" | Cls_CallPickup => "CallPickup"
  | Cls_Pass => "Pass" | Cls_CallSuit => "CallSuit"
  | Cls_EndGame => "EndGame" | Cls_StartGame => "StartGame"
  end.

Definition Action_getattr (a : Action) (attr : string) : Outcome string :=
  if String.eqb attr "name" then Ret (name a)
  else Raise (AttributeError ("'" +:+ ActionClass_name (cls a) +:+
                              "' object has no attribute '" +:+ attr +:+ "'")).

Module logic.

Record ActionResult (E : Type) : Type := mkResult {
  success : bool;
  message : string;
  follow_up_actions : list E
}.
Arguments mkResult {E} _ _ _.
Arguments success {E} _.
Arguments message {E} _.
Arguments follow_up_actions {E} _.

(** [ActionResult(success, message)]: [follow_up_actions or []]. *)
Definition result {E} (ok : bool) (msg : string) : ActionResult E := mkResult ok msg [].

Record ActionRule (V E : Type) : Type := mkRule {
  validators : list V;
  executor : E;
  success_message : string
}.
Arguments mkRule {V E} _ _ _.
Arguments validators {V E} _.
Arguments executor {V E} _.
Arguments success_message {V E} _.

(** [ActionRule(validators, executor)] *)
Definition rule {V E} (vs : list V) (e : E) : ActionRule V E := mkRule vs e EmptyString.

Section Pipeline.

(** The shared mutable state, the executor and validator objects, and
    their [execute] and [validate] methods.  [execute] yields [None]
    when the method body ends without a [return]. *)
Context {S E V : Type}.
Variable execute : E -> Action -> M S (option (ActionResult E)).
Variable validate : V -> Action -> S -> Outcome bool.
Variable is_player_action : Action -> Outcome bool.

(** The [for executor in to_execute] loop of [run_executors]: either
    the failed result it returns at once, or the follow-ups gathered. *)
Fixpoint run_level (action : Action) (to_execute : list E) (follow_up : list E)
  : M S (ActionResult E + list E) :=
  match to_execute with
  | [] => ret (inr follow_up)
  | executor :: rest =>
      let* res := execute executor action in
      match res with
      | None => raise (AttributeError "'NoneType' object has no attribute 'success'")
      | Some r =>
          if negb (success r) then ret (inl r)
          else run_level action rest (follow_up ++ follow_up_actions r)
      end
  end.

(** [self.success_message or "Action executed successfully"] *)
Definition final_message (msg : string) : string :=
  if String.eqb msg EmptyString then "Action executed successfully" else msg.

(** [ActionRule.run_executors].  The method calls itself as long as a
    level yields follow-ups; [fuel] bounds the depth, and [None] is
    returned only when it is used up. *)
Fixpoint run_executors (fuel : nat) (self : ActionRule V E) (action : Action)
    (to_execute : list E) : M S (option (ActionResult E)) :=
  match fuel with
  | O => ret None
  | Datatypes.S fuel' =>
      let* lvl := run_level action to_execute [] in
      match lvl with
      | inl r => ret (Some r)
      | inr [] => ret (Some (result true (final_message (success_message self))))
      | inr follow_up => run_executors fuel' self action follow_up
      end
  end.

(** What one call of [run_executors] on a single executor does. *)
Definition first_step (fuel : nat) (self : ActionRule V E) (action : Action) (e : E) (s : S)
  : S * Outcome (option (ActionResult E)) :=
  match execute e action s with
  | (s', Raise x) => (s', Raise x)
  | (s', Ret None) =>
      (s', Raise (AttributeError "'NoneType' object has no attribute 'success'"))
  | (s', Ret (Some r)) =>
      if success r then
        match follow_up_actions r with
        | [] => (s', Ret (Some (result true (final_message (success_message self)))))
        | _ :: _ => run_executors fuel self action (follow_up_actions r) s'
        end
      else (s', Ret (Some r))
  end.

(** The validator loop of [process]: [false] at the first validator
    that rejects. *)
Fixpoint run_validators (vs : list V) (action : Action) (s : S) : Outcome bool :=
  match vs with
  | [] => Ret true
  | v :: rest =>
      match validate v action s with
      | Raise e => Raise e
      | Ret false => Ret false
      | Ret true => run_validators rest action s
      end
  end.

(** [ActionRule.process] *)
Definition process (fuel : nat) (self : ActionRule V E) (action : Action)
  : M S (option (ActionResult E)) :=
  let* s := get in
  let* ok := lift (run_validators (validators self) action s) in
  if negb ok then ret (Some (result false "Action validation failed"))
  else run_executors fuel self action [executor self].

(** [ActionRouter.route] *)
Definition route (fuel : nat) (rules : gmap string (ActionRule V E))
    (action : Action) (player_action : bool) : M S (option (ActionResult E)) :=
  match rules !! name action with
  | None => raise (ValueError ("No rule found for action: " +:+ name action))
  | Some rule =>
      let* allowed :=
        (if player_action then lift (is_player_action action) else ret true) in
      if player_action && negb allowed
      then raise (ValueError ("Action " +:+ name action +:+
                              " is not allowed to be executed by a player"))
      else process fuel rule action
  end.

End Pipeline.

End logic.
Import logic.

(** ** euchre/actions.py *)

Module actions.

(** [is_player_action]: reads [action.action_type] and tests it against
    the list of five names. *)
Definition player_action_names : list string :=
  ["play"; "discard"; "call_reneg"; "call_pickup"; "call_suit"].

Definition is_player_action (action : Action) : Outcome bool :=
  match Action_getattr action "action_type" with
  | Ret t => Ret (bool_decide (t ∈ player_action_names))
  | Raise e => Raise e
  end.

Definition Play (card : Card) (player_id : string) : Action :=
  mkAction Cls_Play "play"
    (mkPayload (Some card) (Some player_id) None None None None None None None).

Definition Discard (card : Card) (player_id : string) : Action :=
  mkAction Cls_Discard "discard"
    (mkPayload (Some card) (Some player_id) None None None None None None None).

Definition CallReneg (trick_number team_id : Z) : Action :=
  mkAction Cls_CallReneg "call_reneg"
    (mkPayload None None None None None None None (Some trick_number) (Some team_id)).

Definition CallPickup : Action := mkAction Cls_CallPickup "call_pickup" empty_payload.

Definition Pass : Action := mkAction Cls_Pass "pass" empty_payload.

Definition CallSuit (suit : string) : Action :=
  mkAction Cls_CallSuit "call_suit"
    (mkPayload None None None None None None (Some suit) None None).

Definition EndGame : Action := mkAction Cls_EndGame "end_game" empty_payload.

Definition StartGame : Action := mkAction Cls_StartGame "start_game" empty_payload.

End actions.

(** ** What the executors use of the connection manager and the board *)

(** [connection_manager.get_connection(player_id)] *)
Fixpoint lookup_connection (conns : list (string * Connection)) (player_id : string)
  : option Connection :=
  match conns with
  | [] => None
  | (k, c) :: rest => if String.eqb k player_id then Some c else lookup_connection rest player_id
  end.

Definition get_connection (player_id : string) : Cmd (option Connection) :=
  fun w => (w, Ret (lookup_connection (connections w) player_id)).

(** [connection[1]]: [Connection] defines no [__getitem__]. *)
Definition conn_getitem (c : Connection) (i : Z) : Cmd (option nat) :=
  raise (TypeError "'Connection' object is not subscriptable").

(** [game.deck]: [Game.__init__] stores the deck in [self.board] only
    and [EuchreGame.__init__] adds no such attribute, so the read raises
    before any method of the deck is called. *)
Definition game_deck {A} : Cmd A :=
  raise (AttributeError "'EuchreGame' object has no attribute 'deck'").

(** [Player.add_card] *)
Definition Player_add_card (r : nat) (c : Card) : Cmd unit :=
  modify (fun w => with_players
                     (alter (fun p => mkPlayer (id p) (hand p ++ [c])) r (players w)) w).

(** [Player.remove_card] *)
Definition Player_remove_card (r : nat) (c : Card) : Cmd bool :=
  let* h := attr hand "hand" (Some r) in
  if existsb (fun y => Card_eq y c) h then
    modify (fun w => with_players
                       (alter (fun p => mkPlayer (id p) (remove_first Card_eq c (hand p)))
                              r (players w)) w) ;;
    ret true
  else ret false.

(** A method called on what [connection[1]] gave: a player of the
    seating, or [None]. *)
Definition on_player {A} (name : string) (o : option nat) (method : nat -> Cmd A) : Cmd A :=
  match o with
  | Some r => method r
  | None => raise (AttributeError ("'NoneType' object has no attribute '" +:+ name +:+ "'"))
  end.

(** [player.send_message(message)]: [Player] has no such method. *)
Definition Player_send_message (msg : string) (r : nat) : Cmd unit :=
  raise (AttributeError "'Player' object has no attribute 'send_message'").

(** [board.slots[key].add_card(card)] *)
Definition slot_add_card (key : string) (c : Card) : Cmd unit :=
  fun w => match slots w !! key with
           | Some s => (with_slots (<[key := Slot_add_card c s]> (slots w)) w, Ret tt)
           | None => (w, Raise (KeyError key))
           end.

(** [l[i]] for an int index, negative indices counted from the end. *)
Definition list_getitem {A} (l : list A) (i : Z) : Outcome A :=
  let n := Z.of_nat (length l) in
  let j := if i <? 0 then i + n else i in
  if (j <? 0) || (n <=? j) then Raise (IndexError "list index out of range")
  else match l !! Z.to_nat j with
       | Some x => Ret x
       | None => Raise (IndexError "list index out of range")
       end.

(** Truth value of a pair: a tuple of two components is never empty. *)
Definition tuple_truth {A B} (t : A * B) : bool := true.

(** [x or y] on optional strings: [None] and the empty string are false. *)
Definition str_truth (o : option string) : bool :=
  match o with
  | Some s => negb (String.eqb s EmptyString)
  | None => false
  end.

(** ** euchre/executors.py *)

Module executors.

Inductive Executor : Type :=
| PickUp
| Reneg
| PlayCard
| NotifyCurrentPlayer (override_message : option string)
| AdvanceDealer
| NotifyDealer (override_message : option string)
| Broadcast (override_message : option string)
| Deal
| Discard
| AdvanceTurn
| SetPlayerToDealersLeft
| SetDealer
| SetTrumpSuit
| ClearBoard
| ScoreTrick
| ScoreHand.

Abbreviation Result := (ActionResult Executor).
Abbreviation Exec := (Cmd (option Result)).

Definition returns (r : Result) : Exec := ret (Some r).

(** [game.hand_score[k] += v] and [game.score[k] += v] *)
Definition hand_score_iadd (k v : Z) : Cmd unit :=
  fun w => match dict_iadd (hand_score w) k v with
           | Ret d => (with_hand_score d w, Ret tt)
           | Raise e => (w, Raise e)
           end.

Definition score_iadd (k v : Z) : Cmd unit :=
  fun w => match dict_iadd (score w) k v with
           | Ret d => (with_score d w, Ret tt)
           | Raise e => (w, Raise e)
           end.

Definition hand_score_get (k : Z) : Cmd Z := fun w => (w, dict_get (hand_score w) k).
Definition score_get (k : Z) : Cmd Z := fun w => (w, dict_get (score w) k).

(** [game.get_player(action.payload['player_id']).team_id] *)
Definition payload_team (action : Action) : Cmd Z :=
  let* pid := item p_player_id "player_id" action in
  let* w := get in
  team_id_attr (get_player w pid).

Definition PickUp_execute (action : Action) : Exec :=
  try_except_ValueError
    (let* card := game_deck (A := Card) in
     let* calling := payload_team action in
     let* dealer := gets current_dealer in
     let* dealer_id := attr id "id" dealer in
     let* dealer_connection := get_connection dealer_id in
     match dealer_connection with
     | Some c =>
         let* player := conn_getitem c 1 in
         on_player "add_card" player (fun r => Player_add_card r card) ;;
         modify (with_trump_suit (Some (suit card))) ;;
         add_blocking_discard dealer ;;
         modify (with_calling_team (Some calling)) ;;
         set_phase DISCARD ;;
         returns (result true ("Dealer picked up " +:+ Card_str card))
     | None => returns (result false "Dealer not found")
     end)
    (fun msg => returns (result false msg)).

(** The two branches of [Reneg.execute], for the accuser's team. *)
Definition Reneg_upheld (team : Z) (flag : Z * string) : Exec :=
  let reneg_reason := snd flag in
  hand_score_iadd team 5 ;;
  (* ActionResult(True, message, {}, [Broadcast(...), ScoreHand()]):
     one positional argument more than the constructor takes *)
  raise (TypeError "ActionResult.__init__() takes from 3 to 4 positional arguments but 5 were given").

Definition Reneg_rejected (team : Z) : Exec :=
  let opposing_team := if team =? 2 then 1 else 2 in
  hand_score_iadd opposing_team 5 ;;
  returns (mkResult false ("Team " +:+ str_int team +:+ " failed a reneg call")
             [Broadcast (Some ("Team " +:+ str_int team +:+
                               " called a reneg, but it was not upheld. Team " +:+
                               str_int opposing_team +:+ " wins the hand."));
              ScoreHand]).

Definition Reneg_execute (action : Action) : Exec :=
  let* team := payload_team action in
  let* rs := gets renegs in
  let* flag := lift (list_getitem rs team) in
  if tuple_truth flag then Reneg_upheld team flag else Reneg_rejected team.

Definition PlayCard_execute (action : Action) : Exec :=
  let* card := item p_card "card" action in
  let* current := gets current_player in
  let* current_id := attr id "id" current in
  let* connection := get_connection current_id in
  match connection with
  | Some c =>
      let* player := conn_getitem c 1 in
      let* removed := on_player "remove_card" player (fun r => Player_remove_card r card) in
      if removed then
        let* player := conn_getitem c 1 in
        let* pid := attr id "id" player in
        slot_add_card pid card ;;
        returns (mkResult true ("Played " +:+ Card_str card) [AdvanceTurn])
      else returns (result false "Card not in hand")
  | None => returns (result false "Card not in hand")
  end.

(** [self.override_message or action.payload[key]] *)
Definition message_or {A} (override : option string) (field : Payload -> option string)
    (key : string) (action : Action) : M A string :=
  match override with
  | Some s => if String.eqb s EmptyString then item field key action else ret s
  | None => item field key action
  end.

Definition NotifyCurrentPlayer_execute (override : option string) (action : Action) : Exec :=
  let* msg := message_or override p_message "message" action in
  let* current := gets current_player in
  let* current_id := attr id "id" current in
  let* connection := get_connection current_id in
  match connection with
  | Some c =>
      let* player := conn_getitem c 1 in
      on_player "send_message" player (Player_send_message msg) ;;
      returns (result true ("Notified player " +:+ current_id))
  | None => returns (result false ("Player " +:+ current_id +:+ " not found"))
  end.

Definition AdvanceDealer_execute (action : Action) : Exec :=
  let* dealer := gets current_dealer in
  let* i := players_index dealer in
  let* j := next_index i in
  let* next := players_at j in
  set_dealer next ;;
  let* w := get in
  returns (result true ("Dealer advanced to " +:+ fmt_player w (current_dealer w))).

Definition NotifyDealer_execute (override : option string) (action : Action) : Exec :=
  let* msg := message_or override p_message "message" action in
  let* dealer := gets current_dealer in
  let* dealer_id := attr id "id" dealer in
  let* connection := get_connection dealer_id in
  match connection with
  | Some c =>
      let* player := conn_getitem c 1 in
      on_player "send_message" player (Player_send_message msg) ;;
      returns (result true ("Notified dealer " +:+ dealer_id))
  | None => returns (result false ("Dealer " +:+ dealer_id +:+ " not found"))
  end.

Definition Broadcast_execute (override : option string) (action : Action) : Exec :=
  let* msg := message_or override p_broadcast "broadcast" action in
  (if String.eqb msg EmptyString then ret tt
   else let* conns := gets connections in
        for_each conns (fun c =>
          let* player := conn_getitem (snd c) 1 in
          on_player "send_message" player (Player_send_message msg))) ;;
  returns (result true "Broadcast sent").

Definition Deal_execute (action : Action) : Exec :=
  (* game.deck.collect().shuffle() *)
  game_deck (A := unit) ;;
  for_each (seq 0 5) (fun _ =>
    let* conns := gets connections in
    for_each conns (fun c =>
      (* game.deck.deal() *)
      let* card := game_deck (A := Card) in
      let* player := conn_getitem (snd c) 1 in
      on_player "add_card" player (fun r => Player_add_card r card))) ;;
  (* game.deck.peek() *)
  let* top_card := game_deck (A := Card) in
  returns (mkResult true "Dealt 5 cards to each player"
             [Broadcast (Some ("5 cards have been dealt to each player. The " +:+
                               Card_str top_card +:+ " is showing."))]).

Definition Discard_execute (action : Action) : Exec :=
  let* card := item p_card "card" action in
  let show_card := match p_show (payload action) with Some b => b | None => false end in
  let* player_id := item p_player_id "player_id" action in
  let* w := get in
  remove_blocking_discard (get_player w player_id) ;;
  let* connection := get_connection player_id in
  match connection with
  | Some c =>
      let* player := conn_getitem c 1 in
      let* removed := on_player "remove_card" player (fun r => Player_remove_card r card) in
      if removed then
        (if show_card then
           let* player := conn_getitem c 1 in
           let* pid := attr id "id" player in
           slot_add_card pid card
         else ret tt) ;;
        set_phase PLAY ;;
        returns (result true ("Discarded " +:+ Card_str card))
      else returns (result false "Card not in hand")
  | None => returns (result false "Card not in hand")
  end.

Definition AdvanceTurn_execute (action : Action) : Exec :=
  let* w0 := get in
  let trick_over := ref_eqb (current_dealer w0) (current_player w0) in
  let* current_index := players_index (current_player w0) in
  let* next := next_index current_index in
  let* next_player := players_at next in
  set_current_player next_player ;;
  let* w := get in
  if trick_over then
    if Phase_eqb (phase w) PICKUP_CARD then
      set_phase PICK_SUIT ;;
      returns (mkResult true ("Turn advanced to " +:+ fmt_player w (current_player w))
                 [Broadcast (Some (fmt_player w (current_player w) +:+
                                   " it is your turn to pick a suit."))])
    else if Phase_eqb (phase w) PICK_SUIT then
      set_phase DISCARD ;;
      returns (mkResult true (fmt_player w (current_dealer w) +:+ " must discard a card.")
                 [Broadcast (Some (fmt_player w (current_dealer w) +:+
                                   " you must discard a card."))])
    else if Phase_eqb (phase w) PLAY then
      set_phase SCORE_TRICK ;;
      returns (mkResult true "Trick over. Scoring..."
                 [Broadcast (Some "Trick over. Scoring..."); ScoreTrick])
    else ret None
  else ret None.

Definition SetPlayerToDealersLeft_execute (action : Action) : Exec :=
  let* dealer := gets current_dealer in
  let* current_index := players_index dealer in
  let* next := next_index current_index in
  let* next_player := players_at next in
  set_current_player next_player ;;
  let* w := get in
  returns (mkResult true ("Current player set to " +:+ fmt_player w (current_player w))
             [Broadcast (Some (fmt_player w (current_player w) +:+
                               " it is your turn to play."))]).

Definition SetDealer_execute (action : Action) : Exec :=
  let* dealer_id := item p_dealer_id "dealer_id" action in
  let* w := get in
  let dealer := get_player w dealer_id in
  set_dealer dealer ;;
  returns (mkResult true ("Dealer set to " +:+ fmt_player w dealer)
             [Broadcast (Some ("The dealer is now " +:+ fmt_player w dealer))]).

Definition SetTrumpSuit_execute (action : Action) : Exec :=
  let* suit := item p_suit "suit" action in
  let* calling := payload_team action in
  modify (with_trump_suit (Some suit)) ;;
  modify (with_calling_team (Some calling)) ;;
  set_phase PLAY ;;
  let* pid := item p_player_id "player_id" action in
  let* w := get in
  returns (mkResult true ("Trump suit set to " +:+ suit)
             [Broadcast (Some (fmt_player w (get_player w pid) +:+ " called " +:+
                               suit +:+ " as trump."))]).

Definition ClearBoard_execute (action : Action) : Exec :=
  modify (fun w => with_slots ((fun s => mkSlot [] (face_up s)) <$> slots w) w) ;;
  modify (with_calling_team None) ;;
  modify (with_trump_suit None) ;;
  returns (result true "Board cleared").

(** The dict [order] of [card_value] and its [order.get(rank, -1)]. *)
Definition order : list (string * Z) :=
  [("9", 0); ("10", 1); ("J", 2); ("Q", 3); ("K", 4); ("A", 5)].

Fixpoint order_get (d : list (string * Z)) (r : string) (default : Z) : Z :=
  match d with
  | [] => default
  | (k, v) :: rest => if String.eqb k r then v else order_get rest r default
  end.

(** The closure [card_value] of [ScoreTrick.execute], with the two
    variables it captures. *)
Definition card_value (starting_suit : string) (trump_suit : option string) (card : Card) : Z :=
  let bonus :=
    if String.eqb (suit card) starting_suit then 10
    else if bool_decide (Some (suit card) = trump_suit) then 20
    else 0 in
  order_get order (rank card) (-1) + bonus.

(** Step 1 of [ScoreTrick.execute]: the top card of each player's slot,
    starting at the current player; the failed result as soon as a slot
    is missing or empty. *)
Fixpoint gather (n starting_index : nat) (idx : list nat) (played_cards : list (nat * Card))
  : Cmd (Result + list (nat * Card)) :=
  match idx with
  | [] => ret (inr played_cards)
  | i :: rest =>
      let* player := players_at ((starting_index + i) `mod` n)%nat in
      let* pid := attr id "id" player in
      let* sl := gets (fun w => slots w !! pid) in
      match sl, player with
      | Some s, Some r =>
          match last (cards s) with
          | Some top => gather n starting_index rest (played_cards ++ [(r, top)])
          | None => ret (inl (result false ("Player " +:+ pid +:+
                                            " has not played a card this trick.")))
          end
      | _, _ => ret (inl (result false ("Player " +:+ pid +:+
                                        " has not played a card this trick.")))
      end
  end.

(** Steps 3 and 4 of [ScoreTrick.execute], for the play step 2 has
    selected. *)
Definition ScoreTrick_award (winner : nat) (winning_card : Card) : Exec :=
  let* team := team_id_attr (Some winner) in
  hand_score_iadd team 1 ;;
  let* h1 := hand_score_get 1 in
  let* h2 := hand_score_get 2 in
  if 5 <=? h1 + h2 then
    set_phase SCORE_GAME ;;
    returns (mkResult true "Hand over. Scoring..."
               [Broadcast (Some "Hand over. Scoring..."); ScoreHand])
  else
    set_phase PLAY ;;
    set_current_player (Some winner) ;;
    let* w := get in
    returns (mkResult true
               (str_int team +:+ " wins the trick with " +:+ Card_str winning_card +:+ ".")
               [Broadcast (Some ("Team " +:+ str_int team +:+ " wins the trick with " +:+
                                 Card_str winning_card +:+ ". " +:+
                                 fmt_player w (Some winner) +:+
                                 " will start the next trick."));
                NotifyCurrentPlayer (Some (fmt_player w (Some winner) +:+
                                           " it is your turn to play."))]).

(** Steps 1 and 2 of [ScoreTrick.execute]: the plays gathered, and the
    pair that line 199 binds to [winner, winning_card]; or the failed
    result of step 1. *)
Definition ScoreTrick_select : Cmd (Result + nat * Card) :=
  let* current := gets current_player in
  let* starting_index := players_index current in
  let* n := gets (fun w => length (players w)) in
  let* g := gather n starting_index (seq 0 n) [] in
  match g with
  | inl failed => ret (inl failed)
  | inr played_cards =>
      let* first := lift (list_getitem played_cards 0) in
      let starting_suit := suit (snd first) in
      let* trump := gets trump_suit in
      let* best := lift (max_by (fun pc => card_value starting_suit trump (snd pc))
                                played_cards) in
      ret (inr best)
  end.

Definition ScoreTrick_execute (action : Action) : Exec :=
  let* selected := ScoreTrick_select in
  match selected with
  | inl failed => returns failed
  | inr (winner, winning_card) => ScoreTrick_award winner winning_card
  end.

Definition ScoreHand_execute (action : Action) : Exec :=
  let* h1 := hand_score_get 1 in
  let* h2 := hand_score_get 2 in
  let winning_score := Z.max h1 h2 in
  let winner := if h2 <? h1 then 1 else 2 in
  let* calling := gets calling_team in
  let points :=
    if (5 <=? winning_score) || negb (bool_decide (Some winner = calling)) then 2 else 1 in
  score_iadd winner points ;;
  let* s := score_get winner in
  if 10 <=? s then
    set_phase END_GAME ;;
    returns (mkResult true ("Team " +:+ str_int winner +:+ " wins the game!")
               [Broadcast (Some ("Team " +:+ str_int winner +:+ " wins the game!"))])
  else
    set_phase DEAL ;;
    modify (with_hand_score (<[2 := 0]> (<[1 := 0]> ∅))) ;;
    let* s1 := score_get 1 in
    let* s2 := score_get 2 in
    returns (mkResult true ("Team " +:+ str_int winner +:+ " wins the hand!")
               [Broadcast (Some ("Team " +:+ str_int winner +:+
                                 " wins the hand! Score is now " +:+ str_int s1 +:+
                                 " to " +:+ str_int s2 +:+ "."));
                ClearBoard; AdvanceDealer; Deal]).

(** [executor.execute(action, connection_manager, board, game)] *)
Definition execute (e : Executor) (action : Action) : Exec :=
  match e with
  | PickUp => PickUp_execute action
  | Reneg => Reneg_execute action
  | PlayCard => PlayCard_execute action
  | NotifyCurrentPlayer m => NotifyCurrentPlayer_execute m action
  | AdvanceDealer => AdvanceDealer_execute action
  | NotifyDealer m => NotifyDealer_execute m action
  | Broadcast m => Broadcast_execute m action
  | Deal => Deal_execute action
  | Discard => Discard_execute action
  | AdvanceTurn => AdvanceTurn_execute action
  | SetPlayerToDealersLeft => SetPlayerToDealersLeft_execute action
  | SetDealer => SetDealer_execute action
  | SetTrumpSuit => SetTrumpSuit_execute action
  | ClearBoard => ClearBoard_execute action
  | ScoreTrick => ScoreTrick_execute action
  | ScoreHand => ScoreHand_execute action
  end.

End executors.

(** ** euchre/validators.py *)

(** Values met by the [in] test of [BlockedOnPlayerDiscard]: a player id
    (a string) on the left, Player objects or [None] in the list.  [==]
    between a string and a Player or [None] is false. *)
Inductive Obj : Type :=
| Obj_str (s : string)
| Obj_ref (o : option nat).

Definition Obj_eq (a b : Obj) : bool :=
  match a, b with
  | Obj_str s, Obj_str t => String.eqb s t
  | Obj_ref o, Obj_ref q => ref_eqb o q
  | _, _ => false
  end.

(** [x in l] *)
Definition contains (x : Obj) (l : list Obj) : bool := existsb (fun y => Obj_eq y x) l.

Module validators.

Inductive Validator : Type :=
| CorrectPhase | PlayersTurn | CanPass | BlockedOnPlayerDiscard
| HasCard | ValidSuit | TrickOver | HandOver.

Definition isinstance (action : Action) (classes : list ActionClass) : bool :=
  existsb (ActionClass_eqb (cls action)) classes.

(** [CorrectPhase.validate].  The names [TrickOver] and [HandOver] in
    its tests are the validator classes of this module, of which no
    action is an instance, so those tests are false for every action.
    The name [EndGame] of the last test is bound nowhere in the module:
    an action that gets that far meets a NameError. *)
Definition CorrectPhase_validate (action : Action) (w : World) : Outcome bool :=
  if isinstance action [Cls_Play; Cls_CallReneg] then Ret (Phase_eqb (phase w) PLAY)
  else if isinstance action [Cls_Discard] then Ret (Phase_eqb (phase w) DISCARD)
  else if isinstance action [Cls_CallPickup] then Ret (Phase_eqb (phase w) PICKUP_CARD)
  else if isinstance action [Cls_CallSuit] then Ret (Phase_eqb (phase w) PICK_SUIT)
  else if isinstance action [Cls_Pass]
       then Ret (Phase_eqb (phase w) PICKUP_CARD || Phase_eqb (phase w) PICK_SUIT)
  else Raise (NameError "name 'EndGame' is not defined").

(** Runs a read-only command and keeps its outcome. *)
Definition observe {A} (m : Cmd A) (w : World) : Outcome A := snd (m w).

Definition PlayersTurn_validate (action : Action) (w : World) : Outcome bool :=
  observe (let* current_id := attr id "id" (current_player w) in
           let* connection := get_connection current_id in
           ret (bool_decide (connection ≠ None))) w.

Definition CanPass_validate (action : Action) (w : World) : Outcome bool :=
  observe (let* pid := item p_player_id "player_id" action in
           ret (negb (ref_eqb (current_dealer w) (get_player w pid)
                      && Phase_eqb (phase w) PICK_SUIT))) w.

Definition BlockedOnPlayerDiscard_validate (action : Action) (w : World) : Outcome bool :=
  observe (let* player_id := item p_player_id "player_id" action in
           ret (contains (Obj_str player_id) (map Obj_ref (blocking_on_discard w)))) w.

Definition HasCard_validate (action : Action) (w : World) : Outcome bool :=
  if isinstance action [Cls_Play; Cls_Discard] then
    observe (let* pid := item p_player_id "player_id" action in
             match get_player w pid with
             | Some r =>
                 let* card := item p_card "card" action in
                 let* h := attr hand "hand" (Some r) in
                 ret (existsb (fun y => Card_eq y card) h)
             | None => ret false
             end) w
  else Ret false.

Definition ValidSuit_validate (action : Action) (w : World) : Outcome bool :=
  if negb (isinstance action [Cls_CallSuit]) then Ret true
  else observe (let* suit := item p_suit "suit" action in
                (* game.deck.SUITS *)
                let* suits := game_deck (A := list string) in
                if negb (bool_decide (suit ∈ suits)) then ret false
                else if Phase_eqb (phase w) PICKUP_CARD
                     then raise (AttributeError "'Board' object has no attribute 'peek'")
                     else ret true) w.

Definition TrickOver_validate (action : Action) (w : World) : Outcome bool :=
  Ret (forallb (fun kv => bool_decide (length (cards (snd kv)) = 0%nat))
               (map_to_list (slots w))).

Definition HandOver_validate (action : Action) (w : World) : Outcome bool :=
  observe (let* h1 := executors.hand_score_get 1 in
           let* h2 := executors.hand_score_get 2 in
           ret (h1 + h2 =? 5)) w.

Definition validate (v : Validator) (action : Action) (w : World) : Outcome bool :=
  match v with
  | CorrectPhase => CorrectPhase_validate action w
  | PlayersTurn => PlayersTurn_validate action w
  | CanPass => CanPass_validate action w
  | BlockedOnPlayerDiscard => BlockedOnPlayerDiscard_validate action w
  | HasCard => HasCard_validate action w
  | ValidSuit => ValidSuit_validate action w
  | TrickOver => TrickOver_validate action w
  | HandOver => HandOver_validate action w
  end.

End validators.

(** ** euchre/rules.py and the router of euchre/setup.py *)

Abbreviation Rule := (ActionRule validators.Validator executors.Executor).

Module rules.

Definition Deal : Rule := rule [validators.CorrectPhase] executors.Deal.

Definition Discard : Rule :=
  rule [validators.CorrectPhase; validators.HasCard; validators.BlockedOnPlayerDiscard]
       executors.Discard.

Definition PlayCard : Rule :=
  rule [validators.CorrectPhase; validators.PlayersTurn; validators.HasCard]
       executors.PlayCard.

Definition TrickOver : Rule :=
  rule [validators.CorrectPhase; validators.TrickOver] executors.ScoreTrick.

End rules.

(** The engine of core/logic.py at the Euchre executors and validators. *)
Definition run_executors := logic.run_executors executors.execute (V := validators.Validator).
Definition process := logic.process executors.execute validators.validate.
Definition route := logic.route executors.execute validators.validate actions.is_player_action.

Section Router.

(** [EuchreActionRouter.__init__] fills six keys.  Three of the rules
    it names have no constructible definition in euchre/rules.py
    ([CallReneg] and [CallPickup] are not declared there, and the
    [CallSuit] rule names an executor that does not exist); they are
    taken as given. *)
Variables CallReneg CallPickup CallSuit : Rule.

Definition EuchreActionRouter : gmap string Rule :=
  <["trick_over" := rules.TrickOver]>
  (<["call_suit" := CallSuit]>
  (<["call_pickup" := CallPickup]>
  (<["call_reneg" := CallReneg]>
  (<["discard" := rules.Discard]>
  (<["play" := rules.PlayCard]> ∅))))).

End Router.


(** ** Tables used by the examples *)

Module Scenario.

(** Four seated players. *)
Definition seats : list Player :=
  [mkPlayer "P0" []; mkPlayer "P1" []; mkPlayer "P2" []; mkPlayer "P3" []].

(** A game object built by hand over a base deck, with the slot and the
    connection [_create_game] gives each player. *)
Definition table : World := new_game Deck.init seats.

(** An action object of the base class with an empty payload, as the
    engine hands to system executors. *)
Definition tick : Action := mkAction Cls_Action "tick" empty_payload.

(** Team 1 called trump and took 2 tricks, team 2 took 3. *)
Definition euchred : World :=
  with_hand_score (<[2 := 3]> (<[1 := 2]> ∅)) (with_calling_team (Some 1) table).

(** First bidding round, dealer at seat 0, the last seat (3) to act. *)
Definition bidding_last_seat : World :=
  with_phase PICKUP_CARD
    (with_current_player (Some 3%nat) (with_current_dealer (Some 0%nat) table)).

(** First bidding round, dealer at seat 0 and about to act. *)
Definition bidding_dealer_turn : World :=
  with_phase PICKUP_CARD
    (with_current_player (Some 0%nat) (with_current_dealer (Some 0%nat) table)).

(** A trick in progress: dealer at seat 0, seat 1 to play and holding
    the ace of hearts, spades trump. *)
Definition mid_trick : World :=
  with_players
    [mkPlayer "P0" []; mkPlayer "P1" [mkCard "A" "Hearts"];
     mkPlayer "P2" []; mkPlayer "P3" []]
    (with_trump_suit (Some "Spades")
       (with_phase PLAY
          (with_current_player (Some 1%nat) (with_current_dealer (Some 0%nat) table)))).

(** A [call_pickup] action that carries the caller's id. *)
Definition pickup_by (player_id : string) : Action :=
  mkAction Cls_CallPickup "call_pickup"
    (mkPayload None (Some player_id) None None None None None None None).

(** A [call_reneg] action that carries the accuser's id. *)
Definition reneg_by (player_id : string) : Action :=
  mkAction Cls_CallReneg "call_reneg"
    (mkPayload None (Some player_id) None None None None None (Some 1) None).

(** The state a pickup is meant to leave: phase DISCARD, the dealer
    (seat 0) listed as blocking on a discard and holding six cards, the
    queen of spades among them. *)
Definition picked_up : World :=
  with_players
    [mkPlayer "P0" [mkCard "10" "Hearts"; mkCard "A" "Hearts"; mkCard "Q" "Diamonds";
                    mkCard "10" "Clubs"; mkCard "A" "Clubs"; mkCard "Q" "Spades"];
     mkPlayer "P1" []; mkPlayer "P2" []; mkPlayer "P3" []]
    (with_blocking_on_discard [Some 0%nat]
       (with_trump_suit (Some "Spades")
          (with_phase DISCARD
             (with_current_player (Some 1%nat) (with_current_dealer (Some 0%nat) table))))).

(** The trick in progress with reneg flags on record. *)
Definition flagged : World :=
  add_reneg 1 "third" (add_reneg 1 "second" (add_reneg 1 "first" mid_trick)).

(** The trick of the specification's example, ready to be scored:
    spades trump, seat 1 led the ace of hearts, then the ten of hearts,
    the nine of spades and the king of clubs. *)
Definition example_trick : World :=
  with_trump_suit (Some "Spades")
    (with_phase SCORE_TRICK
       (with_current_player (Some 1%nat)
          (with_current_dealer (Some 0%nat)
             (with_slots
                (<["P1" := mkSlot [mkCard "A" "Hearts"] true]>
                (<["P2" := mkSlot [mkCard "10" "Hearts"] true]>
                (<["P3" := mkSlot [mkCard "9" "Spades"] true]>
                (<["P0" := mkSlot [mkCard "K" "Clubs"] true]> ∅))))
                table)))).

(** Seat 1 names spades trump. *)
Definition call_spades : Action :=
  mkAction Cls_CallSuit "call_suit"
    (mkPayload None (Some "P1") None None None None (Some "Spades") None None).

End Scenario.

(** ** Notions used by the statements *)

#[global] Instance Card_eq_dec : EqDecision Card.
Proof. solve_decision. Defined.

(** What the data model calls a full Euchre deck: 24 cards, no two
    equal, exactly the six ranks crossed with the four suits. *)
Definition full_euchre_deck (d : list Card) : Prop :=
  length d = 24%nat ∧ NoDup d ∧
  ∀ r s, mkCard r s ∈ d ↔
         r ∈ ["9"; "10"; "J"; "Q"; "K"; "A"] ∧
         s ∈ ["Hearts"; "Diamonds"; "Clubs"; "Spades"].

(** The turn-advance rule with the circuit detected on the player who is
    current after the advance, as the specification words it. *)
Definition promotes_on_post_advance_dealer (action : Action) (w : World) : Prop :=
  let w' := (executors.AdvanceTurn_execute action w).1 in
  current_player w' = current_dealer w' →
  (phase w = PICKUP_CARD → phase w' = PICK_SUIT) ∧
  (phase w = PICK_SUIT → phase w' = DISCARD) ∧
  (phase w = PLAY → phase w' = SCORE_TRICK).

(** The card on top of the slot of the player at seat [r]. *)
Definition top_card (w : World) (r : nat) : option Card :=
  match players w !! r with
  | Some p => match slots w !! id p with
              | Some s => last (cards s)
              | None => None
              end
  | None => None
  end.

(** The plays of a trick in the order trick scoring reads them: one per
    offset in [idx], counted from seat [start] round a table of [n]. *)
Fixpoint plays_from (w : World) (n start : nat) (idx : list nat) : option (list (nat * Card)) :=
  match idx with
  | [] => Some []
  | i :: rest =>
      match top_card w ((start + i) `mod` n)%nat, plays_from w n start rest with
      | Some c, Some l => Some ((((start + i) `mod` n)%nat, c) :: l)
      | _, _ => None
      end
  end.

(** The base order 9 < 10 < J < Q < K < A as positions 0..5. *)
Definition rank_index (r : string) : option nat :=
  index_from String.eqb r EuchreDeck.RANKS 0.

(** The adjusted value in the words of the specification: the rank
    index, plus 10 if the suit is the led suit, plus 20 if the suit is
    the trump suit. *)
Definition spec_adjusted_value (led trump : string) (c : Card) : option Z :=
  match rank_index (rank c) with
  | Some i => Some (Z.of_nat i
                    + (if bool_decide (suit c = led) then 10 else 0)
                    + (if bool_decide (suit c = trump) then 20 else 0))
  | None => None
  end.

(** The executor's value agrees with the specification's at a card. *)
Definition value_as_specified (led trump : string) (c : Card) : Prop :=
  spec_adjusted_value led trump c = Some (executors.card_value led (Some trump) c).

(** The sum the hand-score invariant speaks of, when both teams have an
    entry. *)
Definition hand_total (w : World) : option Z :=
  match hand_score w !! 1, hand_score w !! 2 with
  | Some h1, Some h2 => Some (h1 + h2)
  | _, _ => None
  end.





(** The play [max] selects in step 2 of [ScoreTrick.execute]: the led
    suit is the suit of the first play. *)
Definition trick_winner (trump : option string) (first : nat * Card)
    (rest : list (nat * Card)) : nat * Card :=
  max_from (fun pc => executors.card_value (suit first.2) trump pc.2) first rest.

(** The state after [k] dealer advances in a row. *)
Definition advance_dealer_times (action : Action) (k : nat) (w : World) : World :=
  Nat.iter k (fun v => (executors.AdvanceDealer_execute action v).1) w.

(** How many further levels of follow-ups an executor can set off. *)
Definition depth (e : executors.Executor) : nat :=
  match e with
  | executors.Broadcast _ | executors.NotifyCurrentPlayer _ | executors.NotifyDealer _
  | executors.AdvanceDealer | executors.ClearBoard | executors.PickUp
  | executors.Discard => 0
  | executors.Deal | executors.SetPlayerToDealersLeft | executors.SetDealer
  | executors.SetTrumpSuit => 1
  | executors.ScoreHand => 2
  | executors.ScoreTrick | executors.Reneg => 3
  | executors.AdvanceTurn => 4
  | executors.PlayCard => 5
  end.

(** Every result the computation returns lists only follow-ups of depth
    below [d]. *)
Definition shallow (d : nat) (m : executors.Exec) : Prop :=
  ∀ w w' r, m w = (w', Ret (Some r)) →
            Forall (fun e => (depth e < d)%nat) (follow_up_actions r).

(** Every value the computation returns satisfies [P]. *)
Definition post {A} (P : A → Prop) (m : Cmd A) : Prop :=
  ∀ w w' a, m w = (w', Ret a) → P a.

(** The hand scores [EuchreGame.__init__] and [ScoreHand.execute] set. *)
Definition no_hand_points : gmap Z Z := <[2 := 0]> (<[1 := 0]> ∅).

(** What a run of the engine can do to the cards and the hand scores:
    every hand and the deck are as they were, every slot holds the cards
    it held or none, and the hand scores are as they were or zero. *)
Definition undealt (w w' : World) : Prop :=
  players w' = players w ∧
  deck w' = deck w ∧
  (slots w' = slots w ∨ slots w' = (fun s => mkSlot [] (face_up s)) <$> slots w) ∧
  (hand_score w' = hand_score w ∨ hand_score w' = no_hand_points).

(** The state a computation ends in, with a value or an exception, is
    related by [R] to the state it started in. *)
Definition keeps {A} (R : World → World → Prop) (m : Cmd A) : Prop :=
  ∀ w, R w (m w).1.

(** The classes of action [CorrectPhase.validate] has a branch for
    before it reaches the unbound name. *)
Definition phase_checked : list ActionClass :=
  [Cls_Play; Cls_CallReneg; Cls_Discard; Cls_CallPickup; Cls_CallSuit; Cls_Pass].

(** * Properties *)

(** ** Cards and decks *)

Lemma Card_eq_spec (a b : Card) : Card_eq a b = true ↔ a = b.
Proof.
  destruct a as [ra sa], b as [rb sb]; unfold Card_eq; simpl.
  rewrite andb_true_iff, !String.eqb_eq. split.
  - intros [-> ->]; reflexivity.
  - intros [= -> ->]; auto.
Qed.

(** Closes a decidable closed goal by evaluation. *)
Ltac by_eval :=
  match goal with
  | |- ?P => apply (bool_decide_unpack P); vm_compute; exact I
  end.

(** [EuchreDeck.collect] empties the card list and stops at the first
    card it tries to build. *)
Lemma EuchreDeck_collect_raises (cards : list Card) :
  EuchreDeck.collect cards
  = ([], Raise (AttributeError "'EuchreDeck' object has no attribute 'Card'")).
Proof. reflexivity. Qed.

(** The base class [Deck] loops over thirteen ranks: its own [collect]
    yields 52 cards, whatever the deck held before. *)
Lemma Deck_collect_length (cards : list Card) : length (Deck.collect cards) = 52%nat.
Proof. reflexivity. Qed.

Lemma Deck_collect_NoDup (cards : list Card) : NoDup (Deck.collect cards).
Proof. change (Deck.collect cards) with Deck.init. by_eval. Qed.

(** C9.  No deck of the sources is a deck of 24 unique cards.
    Constructing an [EuchreDeck] raises AttributeError, and so does
    every later [collect] on one, which leaves the deck empty; the base
    [Deck], fresh or after [collect], holds 52 distinct cards. *)
Theorem euchre_deck_never_full :
  EuchreDeck.init = Raise (AttributeError "'EuchreDeck' object has no attribute 'Card'") ∧
  (∀ cards,
     EuchreDeck.collect cards
     = ([], Raise (AttributeError "'EuchreDeck' object has no attribute 'Card'"))) ∧
  (∀ cards,
     length (Deck.collect cards) = 52%nat ∧ NoDup (Deck.collect cards) ∧
     ¬ full_euchre_deck (Deck.collect cards)).
Proof.
  split; [reflexivity|]. split; [exact EuchreDeck_collect_raises|].
  intros cards. split; [apply Deck_collect_length|]. split; [apply Deck_collect_NoDup|].
  intros [Hlen _]. rewrite Deck_collect_length in Hlen. discriminate Hlen.
Qed.

(** ** The action pipeline of core/logic.py *)

Section PipelineFacts.

Context {S E V : Type}.
Variable execute : E -> Action -> M S (option (ActionResult E)).
Variable validate : V -> Action -> S -> Outcome bool.

Lemma run_validators_first_false (vs1 : list V) v vs2 action s :
  Forall (fun u => validate u action s = Ret true) vs1 →
  validate v action s = Ret false →
  logic.run_validators validate (vs1 ++ v :: vs2) action s = Ret false.
Proof.
  intros Hall Hv. induction Hall as [|u vs1 Hu _ IH]; simpl.
  - rewrite Hv. reflexivity.
  - rewrite Hu. exact IH.
Qed.

Lemma run_validators_all_true (vs : list V) action s :
  Forall (fun u => validate u action s = Ret true) vs →
  logic.run_validators validate vs action s = Ret true.
Proof.
  intros Hall. induction Hall as [|u vs Hu _ IH]; simpl; [reflexivity|].
  rewrite Hu. exact IH.
Qed.

(** A validator that raises stops the loop as well: the exception
    leaves [process] before any later validator is consulted. *)
Lemma run_validators_first_raise (vs1 : list V) v vs2 action s e :
  Forall (fun u => validate u action s = Ret true) vs1 →
  validate v action s = Raise e →
  logic.run_validators validate (vs1 ++ v :: vs2) action s = Raise e.
Proof.
  intros Hall Hv. induction Hall as [|u vs1 Hu _ IH]; simpl.
  - rewrite Hv. reflexivity.
  - rewrite Hu. exact IH.
Qed.

Lemma run_executors_single fuel (self : ActionRule V E) action e s :
  logic.run_executors execute (Datatypes.S fuel) self action [e] s
  = logic.first_step execute fuel self action e s.
Proof.
  unfold logic.first_step. simpl. unfold bind.
  destruct (execute e action s) as [s' [[r|]|x]]; simpl; try reflexivity.
  destruct (success r); simpl; [|reflexivity].
  unfold ret. destruct (follow_up_actions r); reflexivity.
Qed.

(** A failed result ends the drain at once: the executors after it in
    the list and the follow-ups it carries are never executed. *)
Lemma run_executors_failed_head fuel (self : ActionRule V E) action e rest s s' r :
  execute e action s = (s', Ret (Some r)) →
  success r = false →
  logic.run_executors execute (Datatypes.S fuel) self action (e :: rest) s
  = (s', Ret (Some r)).
Proof.
  intros He Hr. simpl. unfold bind. rewrite He. simpl. rewrite Hr. reflexivity.
Qed.

(** An executor whose body ends without [return] breaks the drain. *)
Lemma run_executors_none_head fuel (self : ActionRule V E) action e rest s s' :
  execute e action s = (s', Ret None) →
  logic.run_executors execute (Datatypes.S fuel) self action (e :: rest) s
  = (s', Raise (AttributeError "'NoneType' object has no attribute 'success'")).
Proof.
  intros He. simpl. unfold bind. rewrite He. reflexivity.
Qed.

Lemma run_executors_raise_head fuel (self : ActionRule V E) action e rest s s' x :
  execute e action s = (s', Raise x) →
  logic.run_executors execute (Datatypes.S fuel) self action (e :: rest) s
  = (s', Raise x).
Proof.
  intros He. simpl. unfold bind. rewrite He. reflexivity.
Qed.

Lemma process_rejected fuel (self : ActionRule V E) action s :
  logic.run_validators validate (validators self) action s = Ret false →
  logic.process execute validate fuel self action s
  = (s, Ret (Some (result false "Action validation failed"))).
Proof.
  intros H. unfold logic.process, bind, get, lift. rewrite H. reflexivity.
Qed.

Lemma process_accepted fuel (self : ActionRule V E) action s :
  logic.run_validators validate (validators self) action s = Ret true →
  logic.process execute validate fuel self action s
  = logic.run_executors execute fuel self action [executor self] s.
Proof.
  intros H. unfold logic.process, bind, get, lift. rewrite H. reflexivity.
Qed.

(** C8. Validators are consulted in the order of the rule's list.  At
    the first one that returns false, [process] returns the failed
    result with the message "Action validation failed", whatever the
    later validators would do, and the state is the one it was called
    in: the executor has not run.  When every validator returns true,
    [process] executes the rule's executor and goes on with its
    outcome as [run_executors] prescribes. *)
Theorem process_validation_contract fuel (self : ActionRule V E) action s :
  (∀ vs1 v vs2,
      validators self = vs1 ++ v :: vs2 →
      Forall (fun u => validate u action s = Ret true) vs1 →
      validate v action s = Ret false →
      logic.process execute validate fuel self action s
      = (s, Ret (Some (result false "Action validation failed"))))
  ∧ (Forall (fun u => validate u action s = Ret true) (validators self) →
     logic.process execute validate (Datatypes.S fuel) self action s
     = logic.first_step execute fuel self action (executor self) s).
Proof.
  split.
  - intros vs1 v vs2 Hvs Hall Hv. apply process_rejected.
    rewrite Hvs. apply run_validators_first_false; assumption.
  - intros Hall. rewrite process_accepted by (apply run_validators_all_true; exact Hall).
    apply run_executors_single.
Qed.

End PipelineFacts.

#[local] Arguments Nat.modulo : simpl never.

(** ** Hand scoring *)

Ltac run_cmd :=
  unfold bind, ret, raise, gets, get, modify, lift, executors.returns,
    executors.hand_score_get, executors.score_get, executors.hand_score_iadd,
    executors.score_iadd, dict_get, dict_iadd, set_phase, set_current_player,
    set_dealer; simpl.

(** C2. With unequal hand scores, hand scoring names the team with the
    higher hand score the winner and adds to its game score 2 points if
    that hand score is at least 5 or the winner is not the calling team,
    and 1 point otherwise; the other team's score is untouched. *)
Theorem score_hand_award (action : Action) (w : World) (h1 h2 s1 s2 : Z) :
  hand_score w !! 1 = Some h1 →
  hand_score w !! 2 = Some h2 →
  score w !! 1 = Some s1 →
  score w !! 2 = Some s2 →
  h1 ≠ h2 →
  ∃ winner loser hw sw points w' r,
    executors.ScoreHand_execute action w = (w', Ret (Some r)) ∧
    success r = true ∧
    ((winner = 1 ∧ loser = 2 ∧ hw = h1 ∧ sw = s1 ∧ h2 < h1) ∨
     (winner = 2 ∧ loser = 1 ∧ hw = h2 ∧ sw = s2 ∧ h1 < h2)) ∧
    ((points = 2 ∧ (5 ≤ hw ∨ calling_team w ≠ Some winner)) ∨
     (points = 1 ∧ hw < 5 ∧ calling_team w = Some winner)) ∧
    score w' !! winner = Some (sw + points) ∧
    score w' !! loser = score w !! loser.
Proof.
  intros Hh1 Hh2 Hs1 Hs2 Hne.
  unfold executors.ScoreHand_execute. run_cmd. rewrite Hh1, Hh2. simpl.
  destruct (Z.ltb_spec h2 h1) as [Hlt|Hge].
  - rewrite Hs1. simpl. rewrite lookup_insert_eq. simpl.
    rewrite (Z.max_l h1 h2) by lia.
    set (points := if (5 <=? h1) || negb (bool_decide (Some 1 = calling_team w)) then 2 else 1).
    assert (Hp : (points = 2 ∧ (5 ≤ h1 ∨ calling_team w ≠ Some 1)) ∨
                 (points = 1 ∧ h1 < 5 ∧ calling_team w = Some 1)).
    { subst points. destruct (Z.leb_spec 5 h1); simpl; [left; auto|].
      case_bool_decide as Hc; simpl; [right; auto|left; split; [reflexivity|right; congruence]]. }
    destruct (10 <=? s1 + points); simpl.
    + eexists 1, 2, h1, s1, points, _, _. split; [reflexivity|].
      simpl. split; [reflexivity|]. split; [left; repeat split; lia|].
      split; [exact Hp|]. split; [apply lookup_insert_eq|].
      rewrite lookup_insert_ne by lia. reflexivity.
    + rewrite lookup_insert_eq. rewrite lookup_insert_ne by lia. rewrite Hs2. simpl.
      eexists 1, 2, h1, s1, points, _, _. split; [reflexivity|].
      simpl. split; [reflexivity|]. split; [left; repeat split; lia|].
      split; [exact Hp|]. split; [apply lookup_insert_eq|].
      rewrite lookup_insert_ne by lia. reflexivity.
  - rewrite Hs2. simpl. rewrite lookup_insert_eq. simpl.
    rewrite (Z.max_r h1 h2) by lia.
    set (points := if (5 <=? h2) || negb (bool_decide (Some 2 = calling_team w)) then 2 else 1).
    assert (Hp : (points = 2 ∧ (5 ≤ h2 ∨ calling_team w ≠ Some 2)) ∨
                 (points = 1 ∧ h2 < 5 ∧ calling_team w = Some 2)).
    { subst points. destruct (Z.leb_spec 5 h2); simpl; [left; auto|].
      case_bool_decide as Hc; simpl; [right; auto|left; split; [reflexivity|right; congruence]]. }
    destruct (10 <=? s2 + points); simpl.
    + eexists 2, 1, h2, s2, points, _, _. split; [reflexivity|].
      simpl. split; [reflexivity|]. split; [right; repeat split; lia|].
      split; [exact Hp|]. split; [apply lookup_insert_eq|].
      rewrite lookup_insert_ne by lia. reflexivity.
    + rewrite lookup_insert_eq. rewrite lookup_insert_ne by lia. rewrite Hs1. simpl.
      eexists 2, 1, h2, s2, points, _, _. split; [reflexivity|].
      simpl. split; [reflexivity|]. split; [right; repeat split; lia|].
      split; [exact Hp|]. split; [apply lookup_insert_eq|].
      rewrite lookup_insert_ne by lia. reflexivity.
Qed.

(** C2, at a table where the calling team 1 took 2 tricks and team 2
    took 3: team 2 wins and is awarded 2 points. *)
Lemma score_hand_award_witness :
  hand_score Scenario.euchred !! 1 = Some 2 ∧
  hand_score Scenario.euchred !! 2 = Some 3 ∧
  score Scenario.euchred !! 1 = Some 0 ∧
  score Scenario.euchred !! 2 = Some 0 ∧
  2 ≠ 3 ∧
  ∃ winner loser hw sw points w' r,
    executors.ScoreHand_execute Scenario.tick Scenario.euchred = (w', Ret (Some r)) ∧
    success r = true ∧
    ((winner = 1 ∧ loser = 2 ∧ hw = 2 ∧ sw = 0 ∧ 3 < 2) ∨
     (winner = 2 ∧ loser = 1 ∧ hw = 3 ∧ sw = 0 ∧ 2 < 3)) ∧
    ((points = 2 ∧ (5 ≤ hw ∨ calling_team Scenario.euchred ≠ Some winner)) ∨
     (points = 1 ∧ hw < 5 ∧ calling_team Scenario.euchred = Some winner)) ∧
    score w' !! winner = Some (sw + points) ∧
    score w' !! loser = score Scenario.euchred !! loser.
Proof.
  assert (H1 : hand_score Scenario.euchred !! 1 = Some 2) by reflexivity.
  assert (H2 : hand_score Scenario.euchred !! 2 = Some 3) by reflexivity.
  assert (H3 : score Scenario.euchred !! 1 = Some 0) by reflexivity.
  assert (H4 : score Scenario.euchred !! 2 = Some 0) by reflexivity.
  assert (H5 : 2 ≠ 3) by lia.
  repeat split; try assumption.
  exact (score_hand_award Scenario.tick Scenario.euchred 2 3 0 0 H1 H2 H3 H4 H5).
Defined.

(** The two examples of the specification: a march by the calling team
    and a euchre both award 2 points. *)
Example score_hand_march :
  let w := with_hand_score (<[2 := 0]> (<[1 := 5]> ∅))
             (with_calling_team (Some 1) Scenario.table) in
  score (executors.ScoreHand_execute Scenario.tick w).1 !! 1 = Some 2.
Proof. reflexivity. Qed.

Example score_hand_euchre :
  score (executors.ScoreHand_execute Scenario.tick Scenario.euchred).1 !! 2 = Some 2.
Proof. reflexivity. Qed.

(** A calling team that wins with fewer than five tricks gets 1 point. *)
Example score_hand_plain :
  let w := with_hand_score (<[2 := 2]> (<[1 := 3]> ∅))
             (with_calling_team (Some 1) Scenario.table) in
  score (executors.ScoreHand_execute Scenario.tick w).1 !! 1 = Some 1.
Proof. reflexivity. Qed.

(** ** Turn advance *)

Lemma AdvanceTurn_unfold action w p :
  current_player w = Some p →
  (p < length (players w))%nat →
  executors.AdvanceTurn_execute action w =
  let next := ((p + 1) `mod` length (players w))%nat in
  let w1 := with_current_player (Some next) w in
  if ref_eqb (current_dealer w) (Some p) then
    if Phase_eqb (phase w) PICKUP_CARD then
      (with_phase PICK_SUIT w1,
       Ret (Some (mkResult true ("Turn advanced to " +:+ fmt_player w1 (Some next))
                    [executors.Broadcast
                       (Some (fmt_player w1 (Some next) +:+
                              " it is your turn to pick a suit."))])))
    else if Phase_eqb (phase w) PICK_SUIT then
      (with_phase DISCARD w1,
       Ret (Some (mkResult true (fmt_player w1 (current_dealer w) +:+ " must discard a card.")
                    [executors.Broadcast
                       (Some (fmt_player w1 (current_dealer w) +:+
                              " you must discard a card."))])))
    else if Phase_eqb (phase w) PLAY then
      (with_phase SCORE_TRICK w1,
       Ret (Some (mkResult true "Trick over. Scoring..."
                    [executors.Broadcast (Some "Trick over. Scoring...");
                     executors.ScoreTrick])))
    else (w1, Ret None)
  else (w1, Ret None).
Proof.
  intros Hc Hp.
  assert (Hmod : ((p + 1) `mod` length (players w) < length (players w))%nat)
    by (apply Nat.mod_upper_bound; lia).
  unfold executors.AdvanceTurn_execute, players_index, next_index, players_at.
  run_cmd. rewrite Hc. rewrite bool_decide_true by exact Hp. simpl.
  rewrite bool_decide_false by lia. simpl.
  rewrite bool_decide_true by exact Hmod. simpl.
  destruct (ref_eqb (current_dealer w) (Some p)); [|reflexivity].
  destruct (Phase_eqb (phase w) PICKUP_CARD); [reflexivity|].
  destruct (Phase_eqb (phase w) PICK_SUIT); [reflexivity|].
  destruct (Phase_eqb (phase w) PLAY); reflexivity.
Qed.

Lemma Phase_eqb_spec (a b : Phase) : Phase_eqb a b = true ↔ a = b.
Proof. destruct a, b; simpl; split; intros H; try reflexivity; discriminate H. Qed.

Lemma ref_eqb_true (a b : option nat) : ref_eqb a b = true ↔ a = b.
Proof. unfold ref_eqb. apply bool_decide_eq_true. Qed.

Lemma ref_eqb_false (a b : option nat) : ref_eqb a b = false ↔ a ≠ b.
Proof. unfold ref_eqb. apply bool_decide_eq_false. Qed.

(** When the player who has just acted is the dealer, the phase is
    promoted and a result is returned. *)
Lemma AdvanceTurn_after_dealer action w p :
  current_player w = Some p →
  (p < length (players w))%nat →
  current_dealer w = Some p →
  ∃ w' r,
    executors.AdvanceTurn_execute action w = (w', Ret r) ∧
    current_player w' = Some ((p + 1) `mod` length (players w))%nat ∧
    current_dealer w' = current_dealer w ∧
    (phase w = PICKUP_CARD → phase w' = PICK_SUIT) ∧
    (phase w = PICK_SUIT → phase w' = DISCARD) ∧
    (phase w = PLAY →
     phase w' = SCORE_TRICK ∧
     ∃ res, r = Some res ∧ success res = true ∧
            executors.ScoreTrick ∈ follow_up_actions res).
Proof.
  intros Hc Hp Hd. rewrite (AdvanceTurn_unfold action w p Hc Hp). cbv zeta.
  apply ref_eqb_true in Hd. rewrite Hd.
  destruct (phase w) eqn:Hph; simpl;
    (eexists _, _; split; [reflexivity|]; simpl;
     repeat split; try discriminate; try reflexivity).
  eexists; repeat split. apply list_elem_of_In. simpl. auto.
Qed.

(** When the player who has just acted is not the dealer, only the
    current player changes and the body ends without a [return]. *)
Lemma AdvanceTurn_mid_circuit action w p :
  current_player w = Some p →
  (p < length (players w))%nat →
  current_dealer w ≠ Some p →
  executors.AdvanceTurn_execute action w
  = (with_current_player (Some ((p + 1) `mod` length (players w))%nat) w, Ret None).
Proof.
  intros Hc Hp Hd. rewrite (AdvanceTurn_unfold action w p Hc Hp). cbv zeta.
  apply ref_eqb_false in Hd. rewrite Hd. reflexivity.
Qed.

(** C4, refuted as stated.  Dealer at seat 0, seat 3 acts in the first
    bidding round: after the advance the current player is the dealer,
    yet the phase is still PICKUP_CARD. *)
Lemma advance_turn_post_compare_counterexample :
  ¬ promotes_on_post_advance_dealer Scenario.tick Scenario.bidding_last_seat.
Proof.
  unfold promotes_on_post_advance_dealer. intros H.
  destruct (H eq_refl) as [Hpickup _].
  specialize (Hpickup eq_refl). vm_compute in Hpickup. discriminate Hpickup.
Qed.

(** The converse failure: when the dealer acts, the player current after
    the advance is not the dealer, and the phase is promoted all the same. *)
Example advance_turn_dealer_acts :
  let w' := (executors.AdvanceTurn_execute Scenario.tick Scenario.bidding_dealer_turn).1 in
  current_player w' = Some 1%nat ∧ current_dealer w' = Some 0%nat ∧ phase w' = PICK_SUIT.
Proof. vm_compute. auto. Qed.

(** C4, amended.  At a table of four, a turn advance makes the next seat
    modulo 4 the current player and leaves the dealer as it is.  The
    circuit is complete when the player who was current before the
    advance is the dealer: then PICKUP_CARD becomes PICK_SUIT, PICK_SUIT
    becomes DISCARD, and PLAY becomes SCORE_TRICK with trick scoring
    among the follow-ups of a successful result.  When that player is
    not the dealer the phase is unchanged. *)
Theorem advance_turn_pre_compare (action : Action) (w : World) (p : nat) :
  length (players w) = 4%nat →
  current_player w = Some p →
  (p < 4)%nat →
  ∃ w' r,
    executors.AdvanceTurn_execute action w = (w', Ret r) ∧
    current_player w' = Some ((p + 1) `mod` 4)%nat ∧
    current_dealer w' = current_dealer w ∧
    (current_dealer w = Some p →
       (phase w = PICKUP_CARD → phase w' = PICK_SUIT) ∧
       (phase w = PICK_SUIT → phase w' = DISCARD) ∧
       (phase w = PLAY →
        phase w' = SCORE_TRICK ∧
        ∃ res, r = Some res ∧ success res = true ∧
               executors.ScoreTrick ∈ follow_up_actions res)) ∧
    (current_dealer w ≠ Some p → phase w' = phase w).
Proof.
  intros Hn Hc Hp.
  assert (Hp' : (p < length (players w))%nat) by lia.
  destruct (decide (current_dealer w = Some p)) as [Hd|Hd].
  - destruct (AdvanceTurn_after_dealer action w p Hc Hp' Hd)
      as (w' & r & Hrun & Hcp & Hcd & H1 & H2 & H3).
    exists w', r. rewrite Hn in Hcp. repeat split; try assumption.
    + apply H3; assumption.
    + apply H3; assumption.
    + intros Hne. contradiction.
  - rewrite (AdvanceTurn_mid_circuit action w p Hc Hp' Hd). rewrite Hn.
    eexists _, _. split; [reflexivity|]. simpl.
    split; [reflexivity|]. split; [reflexivity|]. split.
    + intros Hd'. contradiction.
    + intros _. reflexivity.
Qed.

(** C4 amended, at the table where the dealer (seat 0) acts in the first
    bidding round. *)
Lemma advance_turn_pre_compare_witness :
  length (players Scenario.bidding_dealer_turn) = 4%nat ∧
  current_player Scenario.bidding_dealer_turn = Some 0%nat ∧
  (0 < 4)%nat ∧
  ∃ w' r,
    executors.AdvanceTurn_execute Scenario.tick Scenario.bidding_dealer_turn = (w', Ret r) ∧
    current_player w' = Some ((0 + 1) `mod` 4)%nat ∧
    current_dealer w' = current_dealer Scenario.bidding_dealer_turn ∧
    (current_dealer Scenario.bidding_dealer_turn = Some 0%nat →
       (phase Scenario.bidding_dealer_turn = PICKUP_CARD → phase w' = PICK_SUIT) ∧
       (phase Scenario.bidding_dealer_turn = PICK_SUIT → phase w' = DISCARD) ∧
       (phase Scenario.bidding_dealer_turn = PLAY →
        phase w' = SCORE_TRICK ∧
        ∃ res, r = Some res ∧ success res = true ∧
               executors.ScoreTrick ∈ follow_up_actions res)) ∧
    (current_dealer Scenario.bidding_dealer_turn ≠ Some 0%nat →
     phase w' = phase Scenario.bidding_dealer_turn).
Proof.
  assert (H1 : length (players Scenario.bidding_dealer_turn) = 4%nat) by reflexivity.
  assert (H2 : current_player Scenario.bidding_dealer_turn = Some 0%nat) by reflexivity.
  assert (H3 : (0 < 4)%nat) by lia.
  split; [exact H1|]. split; [exact H2|]. split; [exact H3|].
  exact (advance_turn_pre_compare Scenario.tick Scenario.bidding_dealer_turn 0 H1 H2 H3).
Defined.

(** C10.  In the middle of a circuit (the player who has just acted is
    not the dealer) [AdvanceTurn.execute] returns no ActionResult: its
    body ends without a [return].  The drain then fails on
    [result.success] with an AttributeError, whatever follows in the
    list. *)
Theorem advance_turn_mid_circuit_no_result
    (action : Action) (w : World) (p : nat) (fuel : nat) (self : Rule)
    (rest : list executors.Executor) :
  current_player w = Some p →
  (p < length (players w))%nat →
  current_dealer w ≠ Some p →
  (executors.AdvanceTurn_execute action w).2 = Ret None ∧
  (run_executors (S fuel) self action (executors.AdvanceTurn :: rest) w).2
  = Raise (AttributeError "'NoneType' object has no attribute 'success'").
Proof.
  intros Hc Hp Hd. pose proof (AdvanceTurn_mid_circuit action w p Hc Hp Hd) as Hrun.
  split; [rewrite Hrun; reflexivity|].
  unfold run_executors.
  rewrite (run_executors_none_head executors.execute fuel self action
             executors.AdvanceTurn rest w _ Hrun).
  reflexivity.
Qed.

(** C10 at the failing input: seat 3 has acted, the dealer sits at 0. *)
Lemma advance_turn_mid_circuit_no_result_witness :
  current_player Scenario.bidding_last_seat = Some 3%nat ∧
  (3 < length (players Scenario.bidding_last_seat))%nat ∧
  current_dealer Scenario.bidding_last_seat ≠ Some 3%nat ∧
  (executors.AdvanceTurn_execute Scenario.tick Scenario.bidding_last_seat).2 = Ret None ∧
  (run_executors 1 rules.PlayCard Scenario.tick [executors.AdvanceTurn]
     Scenario.bidding_last_seat).2
  = Raise (AttributeError "'NoneType' object has no attribute 'success'").
Proof.
  assert (H1 : current_player Scenario.bidding_last_seat = Some 3%nat) by reflexivity.
  assert (H2 : (3 < length (players Scenario.bidding_last_seat))%nat) by (simpl; lia).
  assert (H3 : current_dealer Scenario.bidding_last_seat ≠ Some 3%nat) by discriminate.
  split; [exact H1|]. split; [exact H2|]. split; [exact H3|].
  exact (advance_turn_mid_circuit_no_result Scenario.tick Scenario.bidding_last_seat
           3 0 rules.PlayCard [] H1 H2 H3).
Defined.

(** The same defect met through the rule of the trick: at the end of a
    trick the turn is advanced and trick scoring listed; one seat
    earlier the drain breaks. *)
Example advance_turn_before_the_dealer :
  (run_executors 10 rules.PlayCard Scenario.tick [executors.AdvanceTurn]
     (with_current_player (Some 3%nat) Scenario.mid_trick)).2
  = Raise (AttributeError "'NoneType' object has no attribute 'success'").
Proof. vm_compute. reflexivity. Qed.

(** ** Discarding after a pickup *)

(** A player id is never found among Player objects. *)
Lemma contains_id_among_players (player_id : string) (l : list (option nat)) :
  contains (Obj_str player_id) (map Obj_ref l) = false.
Proof. induction l as [|r l IH]; simpl; [reflexivity|exact IH]. Qed.

Lemma BlockedOnPlayerDiscard_never_true (action : Action) (w : World) :
  validators.BlockedOnPlayerDiscard_validate action w ≠ Ret true.
Proof.
  unfold validators.BlockedOnPlayerDiscard_validate, validators.observe, item.
  destruct (p_player_id (payload action)) as [pid|]; run_cmd.
  - rewrite contains_id_among_players. discriminate.
  - discriminate.
Qed.

Lemma HasCard_holds (w : World) (card : Card) (player_id : string) (r : nat) (p : Player) :
  get_player w player_id = Some r →
  players w !! r = Some p →
  card ∈ hand p →
  validators.HasCard_validate (actions.Discard card player_id) w = Ret true.
Proof.
  intros Hg Hp Hin.
  unfold validators.HasCard_validate, validators.observe, item, attr. simpl.
  run_cmd. rewrite Hg. simpl. rewrite Hp. simpl. f_equal.
  apply existsb_exists. exists card. split.
  - apply list_elem_of_In. exact Hin.
  - apply Card_eq_spec. reflexivity.
Qed.

(** C5.  In phase DISCARD, with the discarding player listed in
    [blocking_on_discard] and holding the card, the phase check and the
    card check pass, but the membership check of
    [BlockedOnPlayerDiscard] compares the player's id with Player
    objects and fails: [process] answers "Action validation failed" and
    the state is unchanged, so the executor never runs, the player stays
    listed and the phase stays DISCARD. *)
Theorem discard_rejected_by_blocking_check
    (fuel : nat) (w : World) (card : Card) (player_id : string) (r : nat) (p : Player) :
  phase w = DISCARD →
  get_player w player_id = Some r →
  players w !! r = Some p →
  card ∈ hand p →
  Some r ∈ blocking_on_discard w →
  validators.validate validators.CorrectPhase (actions.Discard card player_id) w = Ret true ∧
  validators.validate validators.HasCard (actions.Discard card player_id) w = Ret true ∧
  validators.validate validators.BlockedOnPlayerDiscard (actions.Discard card player_id) w
  = Ret false ∧
  process fuel rules.Discard (actions.Discard card player_id) w
  = (w, Ret (Some (result false "Action validation failed"))).
Proof.
  intros Hph Hg Hp Hin Hblk.
  assert (H1 : validators.validate validators.CorrectPhase
                 (actions.Discard card player_id) w = Ret true).
  { simpl. unfold validators.CorrectPhase_validate. simpl. rewrite Hph. reflexivity. }
  assert (H2 : validators.validate validators.HasCard
                 (actions.Discard card player_id) w = Ret true).
  { simpl. eapply HasCard_holds; eassumption. }
  assert (H3 : validators.validate validators.BlockedOnPlayerDiscard
                 (actions.Discard card player_id) w = Ret false).
  { simpl. unfold validators.BlockedOnPlayerDiscard_validate, validators.observe, item.
    simpl. run_cmd. rewrite contains_id_among_players. reflexivity. }
  repeat split; try assumption.
  unfold process. apply process_rejected.
  apply (run_validators_first_false validators.validate
           [validators.CorrectPhase; validators.HasCard]
           validators.BlockedOnPlayerDiscard []).
  - repeat constructor; assumption.
  - exact H3.
Qed.

(** C5 at the failing input: the dealer (seat 0, id P0) holds the queen
    of spades after a pickup and discards it. *)
Lemma discard_rejected_by_blocking_check_witness :
  phase Scenario.picked_up = DISCARD ∧
  (Some 0%nat ∈ blocking_on_discard Scenario.picked_up) ∧
  process 10 rules.Discard (actions.Discard (mkCard "Q" "Spades") "P0") Scenario.picked_up
  = (Scenario.picked_up, Ret (Some (result false "Action validation failed"))).
Proof.
  assert (H1 : phase Scenario.picked_up = DISCARD) by reflexivity.
  assert (H2 : get_player Scenario.picked_up "P0" = Some 0%nat) by reflexivity.
  assert (H3 : players Scenario.picked_up !! 0%nat
               = Some (mkPlayer "P0"
                         [mkCard "10" "Hearts"; mkCard "A" "Hearts"; mkCard "Q" "Diamonds";
                          mkCard "10" "Clubs"; mkCard "A" "Clubs"; mkCard "Q" "Spades"]))
    by reflexivity.
  assert (H4 : mkCard "Q" "Spades" ∈
               hand (mkPlayer "P0"
                       [mkCard "10" "Hearts"; mkCard "A" "Hearts"; mkCard "Q" "Diamonds";
                        mkCard "10" "Clubs"; mkCard "A" "Clubs"; mkCard "Q" "Spades"]))
    by (apply list_elem_of_In; simpl; tauto).
  assert (H5 : Some 0%nat ∈ blocking_on_discard Scenario.picked_up)
    by (apply list_elem_of_In; vm_compute; left; reflexivity).
  split; [exact H1|]. split; [exact H5|].
  exact (proj2 (proj2 (proj2
    (discard_rejected_by_blocking_check 10 Scenario.picked_up (mkCard "Q" "Spades")
       "P0" 0 _ H1 H2 H3 H4 H5)))).
Defined.

(** The executor itself, run on that same input, takes the dealer off
    [blocking_on_discard] as the claim expects, and then fails on
    [connection[1]]: the phase stays DISCARD. *)
Example discard_executor_unblocks :
  let out := executors.Discard_execute (actions.Discard (mkCard "Q" "Spades") "P0")
               Scenario.picked_up in
  blocking_on_discard out.1 = [] ∧ phase out.1 = DISCARD ∧
  out.2 = Raise (TypeError "'Connection' object is not subscriptable").
Proof. vm_compute. auto. Qed.

(** ** Routing *)

Lemma is_player_action_raises (action : Action) :
  actions.is_player_action action
  = Raise (AttributeError ("'" +:+ ActionClass_name (cls action) +:+
                           "' object has no attribute 'action_type'")).
Proof. reflexivity. Qed.

(** "pass" is missing from the list [is_player_action] tests against. *)
Lemma pass_not_in_player_action_names : "pass" ∉ actions.player_action_names.
Proof. by_eval. Qed.

Lemma router_has_no_pass (r1 r2 r3 : Rule) : EuchreActionRouter r1 r2 r3 !! "pass" = None.
Proof.
  unfold EuchreActionRouter.
  repeat (rewrite lookup_insert_ne by discriminate). apply lookup_empty.
Qed.

(** C6.  A client-originated [pass] action is not routed: the router of
    euchre/setup.py registers no rule under "pass", so [route] raises
    "No rule found for action: pass" before any allow-list test, whatever
    the three rules taken as given are. *)
Theorem route_pass_raises (r1 r2 r3 : Rule) (fuel : nat) (w : World) :
  route fuel (EuchreActionRouter r1 r2 r3) actions.Pass true w
  = (w, Raise (ValueError "No rule found for action: pass")).
Proof.
  unfold route, logic.route. simpl name. rewrite router_has_no_pass. reflexivity.
Qed.

(** With [player_action] set, [route] never reaches a rule: a name
    without a rule raises ValueError, and for a registered name the
    allow-list test itself raises, since it reads an attribute that no
    action has. *)
Lemma route_player_action_always_raises
    (table : gmap string Rule) (fuel : nat) (action : Action) (w : World) :
  ∃ e, route fuel table action true w = (w, Raise e).
Proof.
  unfold route, logic.route. destruct (table !! name action).
  - eexists. reflexivity.
  - eexists. reflexivity.
Qed.

(** ** Reneg adjudication *)

(** Every run of [Reneg.execute] ends in an exception on its first
    line, with nothing changed: either the payload has no [player_id],
    or the object [get_player] returns has no [team_id]. *)
Lemma Reneg_execute_raises (action : Action) (w : World) :
  ∃ x, executors.Reneg_execute action w = (w, Raise x).
Proof.
  unfold executors.Reneg_execute, executors.payload_team, item, team_id_attr.
  destruct (p_player_id (payload action)) as [pid|]; run_cmd; [|eexists; reflexivity].
  destruct (get_player w pid) as [r|]; eexists; reflexivity.
Qed.

(** The rejection branch on its own: the opposing team gains 5 hand
    points and the result returned is a failed one that lists hand
    scoring among its follow-ups. *)
Lemma Reneg_rejected_result (team : Z) (w : World) (h : Z) :
  hand_score w !! (if team =? 2 then 1 else 2) = Some h →
  ∃ r,
    executors.Reneg_rejected team w
    = (with_hand_score (<[(if team =? 2 then 1 else 2) := h + 5]> (hand_score w)) w,
       Ret (Some r)) ∧
    success r = false ∧
    executors.ScoreHand ∈ follow_up_actions r.
Proof.
  intros Hh. unfold executors.Reneg_rejected. run_cmd. rewrite Hh. simpl.
  eexists. split; [reflexivity|]. simpl. split; [reflexivity|].
  apply list_elem_of_In. simpl. auto.
Qed.

(** C3.  No reneg accusation leads to hand scoring.  Draining the reneg
    executor always ends in an exception: the game score and the phase
    are what they were, no result is returned, and what follows in the
    list is not executed.  At most one team's hand score has been raised
    by 5 on the way. *)
Theorem reneg_never_scores_hand
    (fuel : nat) (self : Rule) (action : Action) (rest : list executors.Executor)
    (w : World) :
  ∃ w' x,
    run_executors (S fuel) self action (executors.Reneg :: rest) w = (w', Raise x) ∧
    score w' = score w ∧
    phase w' = phase w ∧
    (hand_score w' = hand_score w ∨
     ∃ team h, hand_score w !! team = Some h ∧
               hand_score w' = <[team := h + 5]> (hand_score w)).
Proof.
  destruct (Reneg_execute_raises action w) as (x & Hrun).
  exists w, x. split.
  - unfold run_executors.
    apply (run_executors_raise_head executors.execute fuel self action
             executors.Reneg rest w w x Hrun).
  - repeat split; try reflexivity. left. reflexivity.
Qed.

(** The accusation of a seated player, with or without flags on
    record: the accuser has no [team_id], nothing is awarded and the
    phase is still PLAY. *)
Example reneg_without_flag :
  run_executors 10 rules.PlayCard (Scenario.reneg_by "P1") [executors.Reneg]
    Scenario.mid_trick
  = (Scenario.mid_trick,
     Raise (AttributeError "'Player' object has no attribute 'team_id'")).
Proof. vm_compute. reflexivity. Qed.

Example reneg_with_flag :
  run_executors 10 rules.PlayCard (Scenario.reneg_by "P1") [executors.Reneg]
    Scenario.flagged
  = (Scenario.flagged,
     Raise (AttributeError "'Player' object has no attribute 'team_id'")).
Proof. vm_compute. reflexivity. Qed.

(** The accusation as the action builder makes it carries no
    [player_id]: the executor stops at the payload lookup. *)
Example reneg_as_built :
  run_executors 10 rules.PlayCard (actions.CallReneg 1 2) [executors.Reneg] Scenario.flagged
  = (Scenario.flagged, Raise (KeyError "player_id")).
Proof. vm_compute. reflexivity. Qed.

(** ** Trick scoring *)

Lemma max_from_spec {A} (key : A → Z) (l : list A) (best : A) :
  max_from key best l ∈ best :: l ∧
  ∀ x, x ∈ best :: l → key x ≤ key (max_from key best l).
Proof.
  revert best. induction l as [|y l IH]; intros best; simpl.
  - split; [apply list_elem_of_here|].
    intros x Hx. apply list_elem_of_singleton in Hx as ->. lia.
  - destruct (Z.ltb_spec (key best) (key y)) as [Hlt|Hge].
    + destruct (IH y) as [Hin Hmax]. split.
      * apply list_elem_of_further. exact Hin.
      * intros x Hx. apply elem_of_cons in Hx as [->|Hx].
        -- specialize (Hmax y (list_elem_of_here _ _)). lia.
        -- apply Hmax. exact Hx.
    + destruct (IH best) as [Hin Hmax]. split.
      * apply elem_of_cons in Hin as [Heq|Hin].
        -- rewrite Heq. apply list_elem_of_here.
        -- do 2 apply list_elem_of_further. exact Hin.
      * intros x Hx. apply elem_of_cons in Hx as [->|Hx].
        -- apply Hmax. apply list_elem_of_here.
        -- apply elem_of_cons in Hx as [->|Hx].
           ++ specialize (Hmax best (list_elem_of_here _ _)). lia.
           ++ apply Hmax. apply list_elem_of_further. exact Hx.
Qed.

Lemma gather_plays (w : World) (n start : nat) (idx : list nat)
    (acc l : list (nat * Card)) :
  n = length (players w) →
  n ≠ 0%nat →
  plays_from w n start idx = Some l →
  executors.gather n start idx acc w = (w, Ret (inr (acc ++ l))).
Proof.
  intros Hn Hn0. revert acc l. induction idx as [|i idx IH]; intros acc l Hl; simpl in *.
  - injection Hl as <-. rewrite app_nil_r. reflexivity.
  - unfold top_card in Hl.
    assert (Hlt : ((start + i) `mod` n < length (players w))%nat)
      by (rewrite <- Hn; apply Nat.mod_upper_bound; exact Hn0).
    destruct (players w !! ((start + i) `mod` n)%nat) as [p|] eqn:Hp; [|discriminate].
    destruct (slots w !! id p) as [s|] eqn:Hs; [|discriminate].
    destruct (last (cards s)) as [c|] eqn:Hc; [|discriminate].
    destruct (plays_from w n start idx) as [l'|] eqn:Hl'; [|discriminate].
    injection Hl as <-.
    unfold players_at, attr. run_cmd.
    rewrite bool_decide_true by exact Hlt. simpl. rewrite Hp. simpl. rewrite Hs, Hc.
    rewrite (IH (acc ++ [((start + i) `mod` n, c)%nat]) l' eq_refl).
    rewrite <- app_assoc. reflexivity.
Qed.

#[local] Arguments str_int : simpl never.
#[local] Arguments String.append : simpl never.
#[local] Arguments fmt_player : simpl never.
#[local] Arguments Card_str : simpl never.
#[local] Arguments String.eqb : simpl never.
#[local] Arguments executors.card_value : simpl never.
#[local] Arguments max_from : simpl never.

Lemma list_getitem_head {A} (x : A) (l : list A) : list_getitem (x :: l) 0 = Ret x.
Proof.
  unfold list_getitem. change (0 <? 0) with false. cbv iota.
  destruct (Z.leb_spec (Z.of_nat (length (x :: l))) 0) as [Hc|_].
  - simpl length in Hc. lia.
  - reflexivity.
Qed.

(** The executor's card value: the position of the rank in the base
    order, plus 10 for a card of the led suit, and otherwise plus 20 for
    a trump card. *)
Lemma card_value_formula (led : string) (trump : option string) (c : Card) (i : nat) :
  rank_index (rank c) = Some i →
  executors.card_value led trump c
  = Z.of_nat i + (if bool_decide (suit c = led) then 10
                  else if bool_decide (Some (suit c) = trump) then 20 else 0).
Proof.
  destruct c as [r s].
  unfold executors.card_value, rank_index, EuchreDeck.RANKS, executors.order.
  cbn [rank suit index_from executors.order_get].
  assert (Hb : (if String.eqb s led then 10
                else if bool_decide (Some s = trump) then 20 else 0)
               = (if bool_decide (s = led) then 10
                  else if bool_decide (Some s = trump) then 20 else 0)).
  { destruct (String.eqb_spec s led) as [->|Hne].
    - rewrite (bool_decide_true (led = led)) by reflexivity. reflexivity.
    - rewrite (bool_decide_false (s = led)) by exact Hne. reflexivity. }
  rewrite Hb. clear Hb.
  repeat (match goal with
          | |- context [String.eqb ?a r] => destruct (String.eqb_spec a r) as [<-|?]
          end; [intros [= <-]; reflexivity|]).
  discriminate.
Qed.

Lemma plays_from_top (w : World) (n start : nat) (idx : list nat) (l : list (nat * Card)) :
  plays_from w n start idx = Some l →
  ∀ r c, (r, c) ∈ l → top_card w r = Some c.
Proof.
  revert l. induction idx as [|i idx IH]; intros l Hl r c Hin; simpl in Hl.
  - injection Hl as <-. apply elem_of_nil in Hin. destruct Hin.
  - destruct (top_card w ((start + i) `mod` n)%nat) as [c0|] eqn:Htop; [|discriminate].
    destruct (plays_from w n start idx) as [l'|]; [|discriminate].
    injection Hl as <-. apply elem_of_cons in Hin as [Heq|Hin].
    + injection Heq as -> ->. exact Htop.
    + exact (IH l' eq_refl r c Hin).
Qed.

Lemma top_card_player (w : World) (r : nat) (c : Card) :
  top_card w r = Some c → ∃ p, players w !! r = Some p.
Proof.
  unfold top_card. destruct (players w !! r) as [p|]; [eauto|discriminate].
Qed.

(** Trick scoring on a table where every slot read has a top card:
    steps 1 and 2 leave the state alone and select the play [max]
    returns. *)
Lemma ScoreTrick_run (w : World) (s : nat)
    (first : nat * Card) (rest : list (nat * Card)) :
  current_player w = Some s →
  (s < length (players w))%nat →
  plays_from w (length (players w)) s (seq 0 (length (players w))) = Some (first :: rest) →
  executors.ScoreTrick_select w
  = (w, Ret (inr (trick_winner (trump_suit w) first rest))).
Proof.
  intros Hc Hs Hplays. unfold trick_winner.
  unfold executors.ScoreTrick_select, players_index.
  unfold bind at 1 2 3 4. unfold gets.
  rewrite Hc. rewrite bool_decide_true by exact Hs.
  rewrite (gather_plays w _ s _ [] (first :: rest) eq_refl) by (lia || exact Hplays).
  cbn [app]. unfold bind at 1. unfold lift at 1. rewrite list_getitem_head.
  unfold bind at 1. unfold bind at 1. unfold lift, max_by. reflexivity.
Qed.

(** Steps 3 and 4 never get past the read of [winner.team_id]: no point
    is added and the state is as it was. *)
Lemma ScoreTrick_award_raises (winner : nat) (winning_card : Card) (w : World) :
  executors.ScoreTrick_award winner winning_card w
  = (w, Raise (AttributeError "'Player' object has no attribute 'team_id'")).
Proof. reflexivity. Qed.

(** C1, refuted as stated.  With spades both led and trump, the nine of
    spades is valued 10 by the executor, where the specification's sum
    of both bonuses gives 30. *)
Lemma trick_value_counterexample :
  ¬ value_as_specified "Spades" "Spades" (mkCard "9" "Spades").
Proof. unfold value_as_specified. vm_compute. discriminate. Qed.

(** The values of the specification's example: spades trump, hearts led. *)
Example trick_values_example :
  map (executors.card_value "Hearts" (Some "Spades"))
      [mkCard "A" "Hearts"; mkCard "10" "Hearts"; mkCard "9" "Spades"; mkCard "K" "Clubs"]
  = [15; 11; 20; 4].
Proof. reflexivity. Qed.

(** C1, amended.  For a trick of four plays read from the current
    player round the table, the led suit being the suit of the first
    play: a card's adjusted value is its rank index in 9 < 10 < J < Q <
    K < A (0..5), plus 10 if its suit is the led suit and otherwise plus
    20 if its suit is trump; the play the executor selects as the
    winner, with the state untouched, is a play of the trick whose value
    no other play exceeds, and it is this play that the executor hands
    to its scoring step. *)
Theorem score_trick_winner (action : Action) (w : World) (s : nat)
    (p0 p1 p2 p3 : nat * Card) :
  length (players w) = 4%nat →
  current_player w = Some s →
  (s < 4)%nat →
  plays_from w 4 s [0; 1; 2; 3]%nat = Some [p0; p1; p2; p3] →
  (∀ c i, rank_index (rank c) = Some i →
          executors.card_value (suit p0.2) (trump_suit w) c
          = Z.of_nat i + (if bool_decide (suit c = suit p0.2) then 10
                          else if bool_decide (Some (suit c) = trump_suit w) then 20
                          else 0)) ∧
  ∃ winner winning_card,
    executors.ScoreTrick_select w = (w, Ret (inr (winner, winning_card))) ∧
    (winner, winning_card) ∈ [p0; p1; p2; p3] ∧
    (∀ r c, (r, c) ∈ [p0; p1; p2; p3] →
            executors.card_value (suit p0.2) (trump_suit w) c
            ≤ executors.card_value (suit p0.2) (trump_suit w) winning_card) ∧
    executors.ScoreTrick_execute action w
    = executors.ScoreTrick_award winner winning_card w.
Proof.
  intros Hn Hc Hs Hplays. split.
  - intros c i Hi. apply card_value_formula. exact Hi.
  - assert (Hs' : (s < length (players w))%nat) by lia.
    assert (Hplays' : plays_from w (length (players w)) s (seq 0 (length (players w)))
                      = Some [p0; p1; p2; p3]) by (rewrite Hn; exact Hplays).
    pose proof (ScoreTrick_run w s p0 [p1; p2; p3] Hc Hs' Hplays') as Hrun.
    destruct (max_from_spec
                (fun pc : nat * Card =>
                   executors.card_value (suit p0.2) (trump_suit w) pc.2)
                [p1; p2; p3] p0) as [Hin Hmax].
    fold (trick_winner (trump_suit w) p0 [p1; p2; p3]) in Hin, Hmax.
    destruct (trick_winner (trump_suit w) p0 [p1; p2; p3]) as [wr wc].
    exists wr, wc. simpl in *. split; [exact Hrun|]. split; [exact Hin|].
    split; [intros r c Hrc; exact (Hmax (r, c) Hrc)|].
    unfold executors.ScoreTrick_execute, bind. rewrite Hrun. reflexivity.
Qed.

(** C1 amended, at the specification's example: spades trump, seat 1
    leads the ace of hearts, then ten of hearts, nine of spades, king of
    clubs. *)
Lemma score_trick_winner_witness :
  ∃ winner winning_card,
    executors.ScoreTrick_select Scenario.example_trick
    = (Scenario.example_trick, Ret (inr (winner, winning_card))) ∧
    (winner, winning_card) ∈
      [(1%nat, mkCard "A" "Hearts"); (2%nat, mkCard "10" "Hearts");
       (3%nat, mkCard "9" "Spades"); (0%nat, mkCard "K" "Clubs")] ∧
    (∀ r c, (r, c) ∈ [(1%nat, mkCard "A" "Hearts"); (2%nat, mkCard "10" "Hearts");
                      (3%nat, mkCard "9" "Spades"); (0%nat, mkCard "K" "Clubs")] →
            executors.card_value "Hearts" (Some "Spades") c
            ≤ executors.card_value "Hearts" (Some "Spades") winning_card) ∧
    executors.ScoreTrick_execute Scenario.tick Scenario.example_trick
    = executors.ScoreTrick_award winner winning_card Scenario.example_trick.
Proof.
  assert (H1 : length (players Scenario.example_trick) = 4%nat) by reflexivity.
  assert (H2 : current_player Scenario.example_trick = Some 1%nat) by reflexivity.
  assert (H3 : (1 < 4)%nat) by lia.
  assert (H4 : plays_from Scenario.example_trick 4 1 [0; 1; 2; 3]%nat
               = Some [(1%nat, mkCard "A" "Hearts"); (2%nat, mkCard "10" "Hearts");
                       (3%nat, mkCard "9" "Spades"); (0%nat, mkCard "K" "Clubs")])
    by (vm_compute; reflexivity).
  exact (proj2 (score_trick_winner Scenario.tick Scenario.example_trick 1 _ _ _ _
                  H1 H2 H3 H4)).
Defined.

(** In that example the nine of spades, played from seat 3, is the
    play selected; the scoring step then fails on [winner.team_id] and
    no hand point is added. *)
Example score_trick_example :
  executors.ScoreTrick_select Scenario.example_trick
  = (Scenario.example_trick, Ret (inr (3%nat, mkCard "9" "Spades"))) ∧
  executors.ScoreTrick_execute Scenario.tick Scenario.example_trick
  = (Scenario.example_trick,
     Raise (AttributeError "'Player' object has no attribute 'team_id'")).
Proof. vm_compute. auto. Qed.

(** ** The hand-score total *)

(** *** What no run of the engine changes *)

Lemma undealt_refl (w : World) : undealt w w.
Proof. unfold undealt. auto. Qed.

Lemma undealt_trans (w1 w2 w3 : World) : undealt w1 w2 → undealt w2 w3 → undealt w1 w3.
Proof.
  intros (Hp & Hd & Hs & Hh) (Hp' & Hd' & Hs' & Hh').
  split; [congruence|]. split; [congruence|]. split.
  - destruct Hs' as [Hs'|Hs']; rewrite Hs'.
    + exact Hs.
    + destruct Hs as [->| ->]; [right; reflexivity|].
      right. rewrite <- map_fmap_compose. reflexivity.
  - destruct Hh' as [Hh'|Hh']; rewrite Hh'; [exact Hh|right; reflexivity].
Qed.

Lemma keeps_bind {A B} (m : Cmd A) (k : A → Cmd B) :
  keeps undealt m → (∀ a, keeps undealt (k a)) → keeps undealt (bind m k).
Proof.
  intros Hm Hk w. specialize (Hm w). unfold bind.
  destruct (m w) as [w1 [a|x]]; simpl in *; [|exact Hm].
  exact (undealt_trans _ _ _ Hm (Hk a w1)).
Qed.

(** After a computation that always raises, what follows is not run. *)
Lemma keeps_bind_never {A B} (m : Cmd A) (k : A → Cmd B) :
  post (fun _ => False) m → keeps undealt m → keeps undealt (bind m k).
Proof.
  intros Hnever Hm w. specialize (Hm w). unfold bind.
  destruct (m w) as [w1 [a|x]] eqn:Hmw; simpl in *; [|exact Hm].
  destruct (Hnever w w1 a Hmw).
Qed.

Lemma keeps_try {A} (m : Cmd A) (h : string → Cmd A) :
  keeps undealt m → (∀ msg, keeps undealt (h msg)) →
  keeps undealt (try_except_ValueError m h).
Proof.
  intros Hm Hh w. specialize (Hm w). unfold try_except_ValueError.
  destruct (m w) as [w1 [a|x]]; simpl in *; [exact Hm|].
  destruct x; try exact Hm. exact (undealt_trans _ _ _ Hm (Hh msg w1)).
Qed.

Lemma keeps_for_each {A} (l : list A) (body : A → Cmd unit) :
  (∀ x, keeps undealt (body x)) → keeps undealt (for_each l body).
Proof.
  intros Hbody. induction l as [|x l IH]; simpl.
  - intros w. apply undealt_refl.
  - apply keeps_bind; [apply Hbody|intros _; exact IH].
Qed.

Lemma never_team_id_attr (o : option nat) : post (fun _ => False) (team_id_attr o).
Proof. intros w w' a H. destruct o; discriminate H. Qed.

Lemma never_payload_team (action : Action) :
  post (fun _ => False) (executors.payload_team action).
Proof.
  intros w w' a. unfold executors.payload_team, item, bind, get, ret, raise.
  destruct (p_player_id (payload action)); [|discriminate].
  destruct (get_player w s); discriminate.
Qed.

Lemma never_game_deck {A} : post (fun _ => False) (game_deck (A := A)).
Proof. intros w w' a H. discriminate H. Qed.

Lemma never_conn_getitem (c : Connection) (i : Z) : post (fun _ => False) (conn_getitem c i).
Proof. intros w w' a H. discriminate H. Qed.

(** A computation built from reads, raises and the mutators that touch
    neither hands, deck, slots nor hand scores. *)
Ltac keeps_leaf :=
  let w := fresh "w" in
  unfold keeps; intros w;
  unfold executors.payload_team, executors.message_or, item, attr, team_id_attr, players_index,
    players_at, next_index, get_connection, conn_getitem, game_deck,
    add_blocking_discard, remove_blocking_discard,
    executors.returns, executors.hand_score_get, executors.score_get, executors.score_iadd,
    set_phase, set_dealer, set_current_player, bind, ret, raise, gets, get, modify, lift,
    dict_get, dict_iadd;
  simpl;
  repeat match goal with
         | |- context [match ?x with _ => _ end] =>
             lazymatch x with
             | context [match _ with _ => _ end] => fail
             | _ => destruct x; simpl
             end
         end;
  unfold undealt; simpl; auto.

Ltac keeps_step :=
  cbv zeta;
  lazymatch goal with
  | |- keeps _ (bind (team_id_attr _) _) =>
      apply keeps_bind_never; [apply never_team_id_attr|keeps_leaf]
  | |- keeps _ (bind (executors.payload_team _) _) =>
      apply keeps_bind_never; [apply never_payload_team|keeps_leaf]
  | |- keeps _ (bind game_deck _) =>
      apply keeps_bind_never; [apply never_game_deck|keeps_leaf]
  | |- keeps _ (bind (conn_getitem _ _) _) =>
      apply keeps_bind_never; [apply never_conn_getitem|keeps_leaf]
  | |- keeps _ (bind _ _) => apply keeps_bind; [first [solve [keeps_leaf]|idtac]|intros ?]
  | |- keeps _ (try_except_ValueError _ _) => apply keeps_try; [|intros ?]
  | |- keeps _ (for_each _ _) => apply keeps_for_each; intros ?
  | |- keeps _ (if ?c then _ else _) => destruct c
  | |- keeps _ (match ?x with _ => _ end) => destruct x
  | |- _ => solve [keeps_leaf]
  end.

Lemma gather_undealt (n start : nat) (idx : list nat) (acc : list (nat * Card)) :
  keeps undealt (executors.gather n start idx acc).
Proof.
  revert acc. induction idx as [|i idx IH]; intros acc; simpl.
  - keeps_leaf.
  - apply keeps_bind; [keeps_leaf|intros player].
    apply keeps_bind; [keeps_leaf|intros pid].
    apply keeps_bind; [keeps_leaf|intros sl].
    destruct sl as [sl|], player as [r|]; try solve [keeps_leaf].
    destruct (last (cards sl)); [apply IH|keeps_leaf].
Qed.

(** No executor deals, moves or scores: whatever the action and the
    state, and whether it returns or raises, the hands and the deck are
    as before, the slots are as before or emptied, and the hand scores
    are as before or zero. *)
Lemma execute_undealt (e : executors.Executor) (action : Action) :
  keeps undealt (executors.execute e action).
Proof.
  destruct e; unfold executors.execute.
  - unfold executors.PickUp_execute. repeat keeps_step.
  - unfold executors.Reneg_execute. repeat keeps_step.
  - unfold executors.PlayCard_execute. repeat keeps_step.
  - unfold executors.NotifyCurrentPlayer_execute. repeat keeps_step.
  - unfold executors.AdvanceDealer_execute. repeat keeps_step.
  - unfold executors.NotifyDealer_execute. repeat keeps_step.
  - unfold executors.Broadcast_execute. repeat keeps_step.
  - unfold executors.Deal_execute. repeat keeps_step.
  - unfold executors.Discard_execute. repeat keeps_step.
  - unfold executors.AdvanceTurn_execute. repeat keeps_step.
  - unfold executors.SetPlayerToDealersLeft_execute. repeat keeps_step.
  - unfold executors.SetDealer_execute. repeat keeps_step.
  - unfold executors.SetTrumpSuit_execute. repeat keeps_step.
  - unfold executors.ClearBoard_execute. repeat keeps_step.
  - unfold executors.ScoreTrick_execute. apply keeps_bind.
    + unfold executors.ScoreTrick_select.
      do 3 (apply keeps_bind; [keeps_leaf|intros ?]).
      apply keeps_bind; [apply gather_undealt|intros g].
      destruct g; [keeps_leaf|]. repeat keeps_step.
    + intros [failed|[winner winning_card]]; [keeps_leaf|].
      unfold executors.ScoreTrick_award. repeat keeps_step.
  - unfold executors.ScoreHand_execute. repeat keeps_step.
Qed.

Lemma run_level_undealt (action : Action) (es acc : list executors.Executor) :
  keeps undealt (logic.run_level executors.execute action es acc).
Proof.
  revert acc. induction es as [|e es IH]; intros acc; simpl.
  - intros w. apply undealt_refl.
  - apply keeps_bind; [apply execute_undealt|intros [r|]].
    + destruct (negb (success r)); [intros w; apply undealt_refl|apply IH].
    + intros w. apply undealt_refl.
Qed.

Lemma run_executors_undealt (fuel : nat) (self : Rule) (action : Action)
    (es : list executors.Executor) :
  keeps undealt (run_executors fuel self action es).
Proof.
  unfold run_executors. revert es. induction fuel as [|fuel IH]; intros es; simpl.
  - intros w. apply undealt_refl.
  - apply keeps_bind; [apply run_level_undealt|intros [r|[|e fu]]].
    + intros w. apply undealt_refl.
    + intros w. apply undealt_refl.
    + apply IH.
Qed.

Lemma hand_total_entries (w : World) (t : Z) :
  hand_total w = Some t →
  ∃ h1 h2, hand_score w !! 1 = Some h1 ∧ hand_score w !! 2 = Some h2 ∧ t = h1 + h2.
Proof.
  unfold hand_total.
  destruct (hand_score w !! 1) as [h1|]; [|discriminate].
  destruct (hand_score w !! 2) as [h2|]; [|discriminate].
  intros [= <-]. eauto.
Qed.






(** The fifth trick of a hand as the claim pictures it, four hand
    points on record and four cards played: trick scoring raises, the
    total stays 4 and the phase stays SCORE_TRICK. *)
Example score_trick_fifth :
  let w := with_hand_score (<[2 := 1]> (<[1 := 3]> ∅)) Scenario.example_trick in
  let out := executors.ScoreTrick_execute Scenario.tick w in
  hand_total out.1 = Some 4 ∧ phase out.1 = SCORE_TRICK ∧
  out.2 = Raise (AttributeError "'Player' object has no attribute 'team_id'").
Proof. vm_compute. auto. Qed.

(** ** The validation contract at the Euchre rules *)

(** C8 at a trick in progress (phase PLAY, seat 1 to play and holding
    the ace of hearts).  A discard is rejected by the first validator of
    its rule, the phase check, and the other two are not consulted; a
    play of the held card passes all three validators of its rule and
    the play executor runs. *)
Lemma process_validation_contract_witness :
  process 9 rules.Discard (actions.Discard (mkCard "A" "Hearts") "P1") Scenario.mid_trick
  = (Scenario.mid_trick, Ret (Some (result false "Action validation failed")))
  ∧
  process 10 rules.PlayCard (actions.Play (mkCard "A" "Hearts") "P1") Scenario.mid_trick
  = logic.first_step executors.execute 9 rules.PlayCard
      (actions.Play (mkCard "A" "Hearts") "P1") executors.PlayCard Scenario.mid_trick.
Proof.
  split.
  - apply (proj1 (process_validation_contract executors.execute validators.validate 9
                    rules.Discard (actions.Discard (mkCard "A" "Hearts") "P1")
                    Scenario.mid_trick)
             [] validators.CorrectPhase
             [validators.HasCard; validators.BlockedOnPlayerDiscard]).
    + reflexivity.
    + constructor.
    + vm_compute. reflexivity.
  - apply (proj2 (process_validation_contract executors.execute validators.validate 9
                    rules.PlayCard (actions.Play (mkCard "A" "Hearts") "P1")
                    Scenario.mid_trick)).
    repeat constructor; vm_compute; reflexivity.
Defined.

(** The rejection comes before a later validator could raise.  With the
    validator list of the [Pass] rule (its executor has no definition in
    the sources; any executor serves here), a [pass] action in the wrong
    phase is turned down by the phase check before [CanPass] looks for
    the missing [player_id]. *)
Example pass_rejected_before_can_pass :
  process 9 (rule [validators.CorrectPhase; validators.PlayersTurn; validators.CanPass]
               executors.AdvanceTurn)
    actions.Pass Scenario.mid_trick
  = (Scenario.mid_trick, Ret (Some (result false "Action validation failed"))).
Proof. vm_compute. reflexivity. Qed.

(** * Further properties of the sources *)

(** ** core/state.py: the deck *)

Lemma swap_lookup (cards : list Card) (i j k : nat) (ci cj : Card) :
  cards !! i = Some ci →
  cards !! j = Some cj →
  Deck.swap cards i j !! k
  = cards !! (if decide (k = i) then j else if decide (k = j) then i else k).
Proof.
  intros Hi Hj. unfold Deck.swap. rewrite Hi, Hj.
  assert (Hli : (i < length cards)%nat) by (eapply lookup_lt_Some; exact Hi).
  assert (Hlj : (j < length cards)%nat) by (eapply lookup_lt_Some; exact Hj).
  destruct (decide (k = j)) as [->|Hkj].
  - rewrite list_lookup_insert_eq by (rewrite length_insert; exact Hlj).
    destruct (decide (j = i)) as [->|_]; [congruence|congruence].
  - rewrite list_lookup_insert_ne by congruence.
    destruct (decide (k = i)) as [->|Hki].
    + rewrite list_lookup_insert_eq by exact Hli. congruence.
    + rewrite list_lookup_insert_ne by congruence. reflexivity.
Qed.

Lemma swap_length (cards : list Card) (i j : nat) :
  length (Deck.swap cards i j) = length cards.
Proof.
  unfold Deck.swap. destruct (cards !! i), (cards !! j); try reflexivity.
  rewrite !length_insert. reflexivity.
Qed.

Lemma swap_Permutation (cards : list Card) (i j : nat) : Deck.swap cards i j ≡ₚ cards.
Proof.
  destruct (cards !! i) as [ci|] eqn:Hi; [|unfold Deck.swap; rewrite Hi; reflexivity].
  destruct (cards !! j) as [cj|] eqn:Hj; [|unfold Deck.swap; rewrite Hi, Hj; reflexivity].
  apply Permutation_inj. split; [apply swap_length|].
  exists (fun k => if decide (k = i) then j else if decide (k = j) then i else k).
  split.
  - intros a b Hab. repeat case_decide; congruence.
  - intros k. apply (swap_lookup cards i j k ci cj Hi Hj).
Qed.

Lemma shuffle_from_Permutation (draws : nat → nat) (k i : nat) (cards : list Card) :
  Deck.shuffle_from draws k i cards ≡ₚ cards.
Proof.
  revert k cards. induction i as [|i IH]; intros k cards; simpl; [reflexivity|].
  rewrite IH. apply swap_Permutation.
Qed.

(** X1.  Shuffling is a permutation: whatever the random draws are, the
    shuffled deck holds the same cards the same number of times. *)
Theorem shuffle_Permutation (draws : nat → nat) (k : nat) (cards : list Card) :
  Deck.shuffle draws k cards ≡ₚ cards.
Proof. apply shuffle_from_Permutation. Qed.

(** X2.  Dealing from a deck without duplicates hands out its first
    card, and that card is not in what remains: it cannot be dealt
    again.  The rest keeps its order and has no duplicates either. *)
Theorem deal_not_redealable (cards rest : list Card) (c : Card) :
  NoDup cards →
  Deck.deal cards = Ret (c, rest) →
  cards = c :: rest ∧ (c ∉ rest) ∧ NoDup rest.
Proof.
  intros Hnd Hdeal. destruct cards as [|c0 cards']; simpl in Hdeal; [discriminate|].
  injection Hdeal as -> ->. apply NoDup_cons in Hnd as [Hnotin Hnd]. auto.
Qed.

Lemma deal_not_redealable_witness :
  NoDup Deck.init ∧
  Deck.init = mkCard "2" "Hearts" :: tail Deck.init ∧
  (mkCard "2" "Hearts" ∉ tail Deck.init) ∧
  NoDup (tail Deck.init).
Proof.
  assert (H1 : NoDup Deck.init) by by_eval.
  assert (H2 : Deck.deal Deck.init
               = Ret (mkCard "2" "Hearts", tail Deck.init)) by reflexivity.
  split; [exact H1|].
  exact (deal_not_redealable Deck.init (tail Deck.init) (mkCard "2" "Hearts") H1 H2).
Defined.

(** A deck can be dealt from exactly when it is not empty; an empty deck
    raises. *)
Lemma deal_raises_iff_empty (cards : list Card) :
  Deck.deal cards = Raise (ValueError "Cannot deal from an empty deck") ↔ cards = [].
Proof.
  destruct cards; simpl; split; intros H; try reflexivity; discriminate H.
Qed.

(** ** core/state.py: players *)

Lemma first_with_id_spec (ps : list Player) (player_id : string) (k r : nat) :
  first_with_id ps player_id k = Some r ↔
  (k ≤ r)%nat ∧
  ∃ p, ps !! (r - k)%nat = Some p ∧ id p = player_id ∧
       ∀ j q, (j < r - k)%nat → ps !! j = Some q → id q ≠ player_id.
Proof.
  revert k r. induction ps as [|p0 ps IH]; intros k r; simpl.
  - split; [discriminate|]. intros (_ & p & Hp & _). discriminate Hp.
  - destruct (String.eqb_spec (id p0) player_id) as [Heq|Hne].
    + split.
      * intros [= <-]. split; [lia|]. exists p0. rewrite Nat.sub_diag.
        split; [reflexivity|]. split; [exact Heq|]. intros j q Hj. lia.
      * intros (Hle & p & Hp & Hid & Hfirst).
        destruct (r - k)%nat as [|d] eqn:Hd; [f_equal; lia|].
        exfalso. apply (Hfirst 0%nat p0); [lia|reflexivity|exact Heq].
    + rewrite IH. split.
      * intros (Hle & p & Hp & Hid & Hfirst). split; [lia|]. exists p.
        replace (r - k)%nat with (S (r - S k)) by lia. simpl.
        split; [exact Hp|]. split; [exact Hid|].
        intros [|j] q Hj Hq; simpl in Hq.
        -- injection Hq as <-. exact Hne.
        -- apply (Hfirst j q); [lia|exact Hq].
      * intros (Hle & p & Hp & Hid & Hfirst).
        destruct (r - k)%nat as [|d] eqn:Hd.
        -- simpl in Hp. injection Hp as <-. contradiction.
        -- simpl in Hp. split; [lia|]. exists p.
           replace (r - S k)%nat with d by lia.
           split; [exact Hp|]. split; [exact Hid|].
           intros j q Hj Hq. apply (Hfirst (S j) q); [lia|exact Hq].
Qed.

(** X3.  [get_player] finds the first seat whose player has the id asked
    for: the seat it returns holds a player with that id, and no earlier
    seat does. *)
Theorem get_player_first (w : World) (player_id : string) (r : nat) :
  get_player w player_id = Some r ↔
  ∃ p, players w !! r = Some p ∧ id p = player_id ∧
       ∀ j q, (j < r)%nat → players w !! j = Some q → id q ≠ player_id.
Proof.
  unfold get_player. rewrite first_with_id_spec. rewrite Nat.sub_0_r.
  split; [intros [_ H]; exact H|intros H; split; [lia|exact H]].
Qed.

(** [get_player] answers [None] exactly when no seated player has the
    id. *)
Lemma get_player_none (w : World) (player_id : string) :
  get_player w player_id = None ↔ ∀ p, p ∈ players w → id p ≠ player_id.
Proof.
  unfold get_player. generalize 0%nat.
  induction (players w) as [|p0 ps IH]; intros k; simpl.
  - split; [intros _ p Hp; apply elem_of_nil in Hp; destruct Hp|reflexivity].
  - destruct (String.eqb_spec (id p0) player_id) as [Heq|Hne].
    + split; [discriminate|]. intros H. exfalso.
      apply (H p0); [apply list_elem_of_here|exact Heq].
    + rewrite IH. split.
      * intros H p Hp. apply elem_of_cons in Hp as [->|Hp]; [exact Hne|exact (H p Hp)].
      * intros H p Hp. apply H. apply list_elem_of_further. exact Hp.
Qed.

Lemma remove_first_Card (c : Card) (l : list Card) :
  c ∈ l → l ≡ₚ c :: remove_first Card_eq c l.
Proof.
  induction l as [|y l IH]; intros Hin; [apply elem_of_nil in Hin; destruct Hin|].
  simpl. destruct (Card_eq y c) eqn:Heq.
  - apply Card_eq_spec in Heq as ->. reflexivity.
  - apply elem_of_cons in Hin as [Hcy|Hin].
    + subst y. assert (Card_eq c c = true) by (apply Card_eq_spec; reflexivity). congruence.
    + rewrite (IH Hin) at 1. apply Permutation_swap.
Qed.

Lemma existsb_Card_eq (c : Card) (l : list Card) :
  existsb (fun y => Card_eq y c) l = true ↔ c ∈ l.
Proof.
  rewrite existsb_exists. split.
  - intros (y & Hy & Heq). apply Card_eq_spec in Heq as ->.
    apply list_elem_of_In. exact Hy.
  - intros Hin. exists c. split; [apply list_elem_of_In; exact Hin|].
    apply Card_eq_spec. reflexivity.
Qed.

(** X4.  Removing a card from a player's hand: when the hand holds the
    card the answer is true, exactly one copy leaves the hand and no
    other player is touched; when it does not, the answer is false and
    nothing changes. *)
Theorem remove_card_spec (w : World) (r : nat) (p : Player) (c : Card) :
  players w !! r = Some p →
  (c ∈ hand p →
   ∃ w' p',
     Player_remove_card r c w = (w', Ret true) ∧
     players w' !! r = Some p' ∧ id p' = id p ∧
     hand p ≡ₚ c :: hand p' ∧
     ∀ j, j ≠ r → players w' !! j = players w !! j) ∧
  (c ∉ hand p → Player_remove_card r c w = (w, Ret false)).
Proof.
  intros Hp. unfold Player_remove_card, attr. run_cmd. rewrite Hp. simpl. split.
  - intros Hin. rewrite (proj2 (existsb_Card_eq c (hand p)) Hin).
    eexists _, _. split; [reflexivity|]. simpl.
    rewrite list_lookup_alter_eq, Hp. simpl. split; [reflexivity|].
    split; [reflexivity|].
    split; [apply remove_first_Card; exact Hin|].
    intros j Hj. apply list_lookup_alter_ne. congruence.
  - intros Hnotin. destruct (existsb (fun y => Card_eq y c) (hand p)) eqn:He.
    + apply existsb_Card_eq in He. contradiction.
    + reflexivity.
Qed.

(** At the trick in progress, where seat 1 holds the ace of hearts
    only: the ace is removed, the nine of clubs is not found. *)
Lemma remove_card_spec_witness :
  players Scenario.mid_trick !! 1%nat = Some (mkPlayer "P1" [mkCard "A" "Hearts"]) ∧
  (mkCard "A" "Hearts" ∈ hand (mkPlayer "P1" [mkCard "A" "Hearts"])) ∧
  (mkCard "9" "Clubs" ∉ hand (mkPlayer "P1" [mkCard "A" "Hearts"])) ∧
  (∃ w' p',
     Player_remove_card 1 (mkCard "A" "Hearts") Scenario.mid_trick = (w', Ret true) ∧
     players w' !! 1%nat = Some p' ∧ id p' = "P1" ∧
     [mkCard "A" "Hearts"] ≡ₚ mkCard "A" "Hearts" :: hand p' ∧
     ∀ j, j ≠ 1%nat → players w' !! j = players Scenario.mid_trick !! j) ∧
  Player_remove_card 1 (mkCard "9" "Clubs") Scenario.mid_trick
  = (Scenario.mid_trick, Ret false).
Proof.
  assert (H1 : players Scenario.mid_trick !! 1%nat
               = Some (mkPlayer "P1" [mkCard "A" "Hearts"])) by reflexivity.
  assert (H2 : mkCard "A" "Hearts" ∈ hand (mkPlayer "P1" [mkCard "A" "Hearts"]))
    by by_eval.
  assert (H3 : mkCard "9" "Clubs" ∉ hand (mkPlayer "P1" [mkCard "A" "Hearts"]))
    by by_eval.
  split; [exact H1|]. split; [exact H2|]. split; [exact H3|]. split.
  - exact (proj1 (remove_card_spec Scenario.mid_trick 1 _ (mkCard "A" "Hearts") H1) H2).
  - exact (proj2 (remove_card_spec Scenario.mid_trick 1 _ (mkCard "9" "Clubs") H1) H3).
Defined.

(** ** euchre/setup.py: the list of players who must discard *)

Lemma remove_first_ref_notin (o : option nat) (l : list (option nat)) :
  NoDup l → o ∉ remove_first ref_eqb o l.
Proof.
  induction l as [|y l IH]; intros Hnd; simpl; [apply not_elem_of_nil|].
  apply NoDup_cons in Hnd as [Hy Hnd]. unfold ref_eqb at 1.
  case_bool_decide as Heq; [subst y; exact Hy|].
  intros Hin. apply elem_of_cons in Hin as [Heq'|Hin]; [congruence|].
  exact (IH Hnd Hin).
Qed.

Lemma remove_first_ref_sub (o x : option nat) (l : list (option nat)) :
  x ∈ remove_first ref_eqb o l → x ∈ l.
Proof.
  induction l as [|y l IH]; simpl; [auto|]. unfold ref_eqb at 1.
  case_bool_decide as Heq; intros Hin.
  - apply list_elem_of_further. exact Hin.
  - apply elem_of_cons in Hin as [->|Hin];
      [apply list_elem_of_here|apply list_elem_of_further; auto].
Qed.

Lemma remove_first_ref_NoDup (o : option nat) (l : list (option nat)) :
  NoDup l → NoDup (remove_first ref_eqb o l).
Proof.
  induction l as [|y l IH]; intros Hnd; simpl; [constructor|].
  apply NoDup_cons in Hnd as [Hy Hnd]. unfold ref_eqb at 1.
  case_bool_decide as Heq; [exact Hnd|].
  apply NoDup_cons. split; [|exact (IH Hnd)].
  intros Hin. apply Hy. eapply remove_first_ref_sub. exact Hin.
Qed.

Lemma remove_first_ref_app_last (o : option nat) (l : list (option nat)) :
  o ∉ l → remove_first ref_eqb o (l ++ [o]) = l.
Proof.
  induction l as [|y l IH]; intros Hnotin; simpl; unfold ref_eqb at 1.
  - rewrite bool_decide_true by reflexivity. reflexivity.
  - case_bool_decide as Heq.
    + exfalso. apply Hnotin. subst y. apply list_elem_of_here.
    + f_equal. apply IH. intros Hin. apply Hnotin. apply list_elem_of_further. exact Hin.
Qed.

(** X5.  The blocking list behaves as a set.  Adding a player (or
    [None], which the mutators accept like a player) keeps it free of
    duplicates and lists the player; removing the player afterwards
    leaves a list without the player, and gives back the original list
    when the player was not on it before. *)
Theorem blocking_discard_add_remove (w : World) (o : option nat) :
  NoDup (blocking_on_discard w) →
  let w1 := (add_blocking_discard o w).1 in
  let w2 := (remove_blocking_discard o w1).1 in
  NoDup (blocking_on_discard w1) ∧
  o ∈ blocking_on_discard w1 ∧
  (o ∉ blocking_on_discard w2) ∧
  NoDup (blocking_on_discard w2) ∧
  (o ∉ blocking_on_discard w → blocking_on_discard w2 = blocking_on_discard w).
Proof.
  intros Hnd. unfold add_blocking_discard, remove_blocking_discard.
  case_bool_decide as Hin; simpl.
  - rewrite bool_decide_true by exact Hin. simpl.
    split; [exact Hnd|]. split; [exact Hin|].
    split; [apply remove_first_ref_notin; exact Hnd|].
    split; [apply remove_first_ref_NoDup; exact Hnd|].
    intros Hnotin. contradiction.
  - assert (Hnd1 : NoDup (blocking_on_discard w ++ [o])).
    { apply NoDup_app. split; [exact Hnd|]. split; [|apply NoDup_singleton].
      intros x Hx Hx'. apply list_elem_of_singleton in Hx' as ->. contradiction. }
    assert (Hin1 : o ∈ blocking_on_discard w ++ [o])
      by (apply elem_of_app; right; apply list_elem_of_here).
    rewrite bool_decide_true by exact Hin1. simpl.
    split; [exact Hnd1|]. split; [exact Hin1|].
    split; [apply remove_first_ref_notin; exact Hnd1|].
    split; [apply remove_first_ref_NoDup; exact Hnd1|].
    intros _. apply remove_first_ref_app_last. exact Hin.
Qed.

Lemma blocking_discard_add_remove_witness :
  NoDup (blocking_on_discard Scenario.mid_trick) ∧
  let w1 := (add_blocking_discard (Some 0%nat) Scenario.mid_trick).1 in
  let w2 := (remove_blocking_discard (Some 0%nat) w1).1 in
  NoDup (blocking_on_discard w1) ∧
  Some 0%nat ∈ blocking_on_discard w1 ∧
  (Some 0%nat ∉ blocking_on_discard w2) ∧
  NoDup (blocking_on_discard w2) ∧
  (Some 0%nat ∉ blocking_on_discard Scenario.mid_trick →
   blocking_on_discard w2 = blocking_on_discard Scenario.mid_trick).
Proof.
  assert (H : NoDup (blocking_on_discard Scenario.mid_trick)) by (vm_compute; constructor).
  split; [exact H|].
  exact (blocking_discard_add_remove Scenario.mid_trick (Some 0%nat) H).
Defined.

(** ** core/logic.py: how the drain composes *)

Section DrainFacts.

Context {S E V : Type}.
Variable execute : E -> Action -> M S (option (ActionResult E)).

(** A level run over a concatenation is the level run over the first
    part, then over the second, with the follow-ups gathered so far. *)
Lemma run_level_app action (es1 es2 acc : list E) (s : S) :
  logic.run_level execute action (es1 ++ es2) acc s
  = match logic.run_level execute action es1 acc s with
    | (s1, Ret (inr acc1)) => logic.run_level execute action es2 acc1 s1
    | other => other
    end.
Proof.
  revert acc s. induction es1 as [|e es1 IH]; intros acc s; simpl; [reflexivity|].
  unfold bind. destruct (execute e action s) as [s1 [[r|]|x]]; simpl; try reflexivity.
  destruct (success r); simpl; [apply IH|reflexivity].
Qed.

Lemma run_level_cons_success action e (rest acc : list E) (s s1 : S) r :
  execute e action s = (s1, Ret (Some r)) →
  success r = true →
  logic.run_level execute action (e :: rest) acc s
  = logic.run_level execute action rest (acc ++ follow_up_actions r) s1.
Proof.
  intros He Hr. simpl. unfold bind. rewrite He. simpl. rewrite Hr. reflexivity.
Qed.

(** More fuel never changes an answer that is not the out-of-fuel one. *)
Lemma run_executors_more_fuel (fuel fuel' : nat) (self : ActionRule V E)
    action (es : list E) (s s' : S) (out : Outcome (option (ActionResult E))) :
  (fuel ≤ fuel')%nat →
  logic.run_executors execute fuel self action es s = (s', out) →
  out ≠ Ret None →
  logic.run_executors execute fuel' self action es s = (s', out).
Proof.
  revert fuel' es s. induction fuel as [|fuel IH]; intros fuel' es s Hle Hrun Hout.
  - simpl in Hrun. unfold ret in Hrun. injection Hrun as _ <-. contradiction.
  - destruct fuel' as [|fuel']; [lia|]. simpl in *. unfold bind in *.
    destruct (logic.run_level execute action es [] s) as [s1 [[r|fu]|x]];
      try exact Hrun.
    destruct fu as [|e fu]; [exact Hrun|].
    apply IH; [lia|exact Hrun|exact Hout].
Qed.


(** X6.  No rollback.  When an executor of a level succeeds and the next
    one returns a failed result, the drain returns that failure in the
    state both have left: what the first one changed stays changed, and
    its follow-ups, like the rest of the level, are never executed. *)
Theorem drain_no_rollback (fuel : nat) (self : ActionRule V E) action
    (e1 e2 : E) (rest : list E) (s s1 s2 : S) (r1 r2 : ActionResult E) :
  execute e1 action s = (s1, Ret (Some r1)) →
  success r1 = true →
  execute e2 action s1 = (s2, Ret (Some r2)) →
  success r2 = false →
  logic.run_executors execute (Datatypes.S fuel) self action (e1 :: e2 :: rest) s
  = (s2, Ret (Some r2)).
Proof.
  intros H1 Hr1 H2 Hr2. simpl. unfold bind.
  rewrite H1. simpl. rewrite Hr1. simpl. rewrite H2. simpl. rewrite Hr2. reflexivity.
Qed.

(** X7.  The drain is breadth-first.  Both executors of a level run
    before any follow-up; the follow-ups of the first and of the second
    are then executed as the next level, in that order. *)
Theorem drain_breadth_first (fuel : nat) (self : ActionRule V E) action
    (e1 e2 : E) (s s1 s2 : S) (r1 r2 : ActionResult E) :
  execute e1 action s = (s1, Ret (Some r1)) →
  success r1 = true →
  execute e2 action s1 = (s2, Ret (Some r2)) →
  success r2 = true →
  follow_up_actions r1 ++ follow_up_actions r2 ≠ [] →
  logic.run_executors execute (Datatypes.S fuel) self action [e1; e2] s
  = logic.run_executors execute fuel self action
      (follow_up_actions r1 ++ follow_up_actions r2) s2.
Proof.
  intros H1 Hr1 H2 Hr2 Hne. simpl. unfold bind.
  rewrite H1. simpl. rewrite Hr1. simpl. rewrite H2. simpl. rewrite Hr2. simpl.
  unfold ret. destruct (follow_up_actions r1 ++ follow_up_actions r2); [contradiction|].
  reflexivity.
Qed.

End DrainFacts.


(** At a trick in progress with empty slots: the board is cleared (trump
    and calling team are forgotten), then trick scoring fails; the
    failure is returned and trump stays forgotten. *)
Lemma drain_no_rollback_witness :
  ∃ s2,
    run_executors 1 rules.TrickOver Scenario.tick
      [executors.ClearBoard; executors.ScoreTrick] Scenario.mid_trick
    = (s2, Ret (Some (result false "Player P1 has not played a card this trick."))) ∧
    trump_suit Scenario.mid_trick = Some "Spades" ∧
    trump_suit s2 = None.
Proof.
  pose (s1 := (executors.execute executors.ClearBoard Scenario.tick Scenario.mid_trick).1).
  assert (H1 : executors.execute executors.ClearBoard Scenario.tick Scenario.mid_trick
               = (s1, Ret (Some (result true "Board cleared"))))
    by (vm_compute; reflexivity).
  assert (H2 : executors.execute executors.ScoreTrick Scenario.tick s1
               = (s1, Ret (Some (result false
                                   "Player P1 has not played a card this trick."))))
    by (vm_compute; reflexivity).
  exists s1. split.
  - exact (drain_no_rollback executors.execute 0 rules.TrickOver Scenario.tick
             executors.ClearBoard executors.ScoreTrick [] Scenario.mid_trick s1 s1
             _ _ H1 eq_refl H2 eq_refl).
  - split; reflexivity.
Defined.

(** At the trick in progress: the turn is given to the dealer's left
    and the board cleared in one level; the broadcast that the first
    asked for runs after both. *)
Lemma drain_breadth_first_witness :
  ∃ s2 msg,
    run_executors 2 rules.PlayCard Scenario.tick
      [executors.SetPlayerToDealersLeft; executors.ClearBoard] Scenario.mid_trick
    = run_executors 1 rules.PlayCard Scenario.tick
        ([executors.Broadcast (Some msg)] ++ []) s2 ∧
    trump_suit s2 = None.
Proof.
  pose (s1 := (executors.execute executors.SetPlayerToDealersLeft Scenario.tick
                 Scenario.mid_trick).1).
  pose (s2 := (executors.execute executors.ClearBoard Scenario.tick s1).1).
  assert (H1 : executors.execute executors.SetPlayerToDealersLeft Scenario.tick
                 Scenario.mid_trick
               = (s1, Ret (Some (mkResult true
                                   "Current player set to Player P1 with 1 cards"
                                   [executors.Broadcast
                                      (Some "Player P1 with 1 cards it is your turn to play.")]))))
    by (vm_compute; reflexivity).
  assert (H2 : executors.execute executors.ClearBoard Scenario.tick s1
               = (s2, Ret (Some (result true "Board cleared"))))
    by (vm_compute; reflexivity).
  exists s2, "Player P1 with 1 cards it is your turn to play.". split.
  - refine (drain_breadth_first executors.execute 1 rules.PlayCard Scenario.tick
              executors.SetPlayerToDealersLeft executors.ClearBoard Scenario.mid_trick s1 s2
              _ _ H1 eq_refl H2 eq_refl _).
    discriminate.
  - reflexivity.
Defined.

(** ** euchre/validators.py *)(** ** euchre/validators.py *)

(** X8.  In the phases SETUP, DEAL, SCORE_TRICK and SCORE_GAME nothing
    gets past the phase check.  A rule whose validators start with
    [CorrectPhase], as all rules of euchre/rules.py do, leaves the state
    alone and runs no executor: to an action of one of the six classes
    the check has a branch for it answers "Action validation failed",
    and on any other action the check itself raises NameError.  In
    particular the [Deal] rule does not deal in phase DEAL. *)
Theorem closed_phases_reject_everything
    (fuel : nat) (vs : list validators.Validator) (e : executors.Executor)
    (action : Action) (w : World) :
  phase w = SETUP ∨ phase w = DEAL ∨ phase w = SCORE_TRICK ∨ phase w = SCORE_GAME →
  process fuel (rule (validators.CorrectPhase :: vs) e) action w
  = (w, if validators.isinstance action phase_checked
        then Ret (Some (result false "Action validation failed"))
        else Raise (NameError "name 'EndGame' is not defined")).
Proof.
  intros Hph. unfold process, logic.process, bind, get, lift. simpl.
  unfold validators.CorrectPhase_validate, validators.isinstance, phase_checked.
  destruct (cls action); simpl; destruct Hph as [H|[H|[H|H]]]; rewrite ?H; reflexivity.
Qed.

(** A play in phase SETUP is turned down; the deal rule, run with a
    plain action in phase DEAL, raises. *)
Lemma closed_phases_reject_everything_witness :
  (phase Scenario.table = SETUP ∨ phase Scenario.table = DEAL ∨
   phase Scenario.table = SCORE_TRICK ∨ phase Scenario.table = SCORE_GAME) ∧
  process 9 rules.PlayCard (actions.Play (mkCard "A" "Hearts") "P1") Scenario.table
  = (Scenario.table, Ret (Some (result false "Action validation failed"))) ∧
  process 9 rules.Deal Scenario.tick (with_phase DEAL Scenario.table)
  = (with_phase DEAL Scenario.table, Raise (NameError "name 'EndGame' is not defined")).
Proof.
  assert (H : phase Scenario.table = SETUP ∨ phase Scenario.table = DEAL ∨
              phase Scenario.table = SCORE_TRICK ∨ phase Scenario.table = SCORE_GAME)
    by (left; reflexivity).
  assert (H' : phase (with_phase DEAL Scenario.table) = SETUP ∨
               phase (with_phase DEAL Scenario.table) = DEAL ∨
               phase (with_phase DEAL Scenario.table) = SCORE_TRICK ∨
               phase (with_phase DEAL Scenario.table) = SCORE_GAME)
    by (right; left; reflexivity).
  split; [exact H|]. split.
  - exact (closed_phases_reject_everything 9
             [validators.PlayersTurn; validators.HasCard] executors.PlayCard
             (actions.Play (mkCard "A" "Hearts") "P1") Scenario.table H).
  - exact (closed_phases_reject_everything 9 [] executors.Deal Scenario.tick
             (with_phase DEAL Scenario.table) H').
Defined.

Lemma get_player_valid (w : World) (player_id : string) (r : nat) :
  get_player w player_id = Some r → ∃ p, players w !! r = Some p ∧ id p = player_id.
Proof.
  unfold get_player. intros H.
  apply first_with_id_spec in H as (_ & p & Hp & Hid & _).
  rewrite Nat.sub_0_r in Hp. eauto.
Qed.

(** X9.  For a play or a discard, the card check never raises and
    passes exactly when the player named in the action is seated and
    holds a card equal to the one named. *)
Theorem HasCard_iff (w : World) (card : Card) (player_id : string) :
  ∃ b,
    validators.HasCard_validate (actions.Play card player_id) w = Ret b ∧
    validators.HasCard_validate (actions.Discard card player_id) w = Ret b ∧
    (b = true ↔
     ∃ r p, get_player w player_id = Some r ∧ players w !! r = Some p ∧ card ∈ hand p).
Proof.
  unfold validators.HasCard_validate, validators.observe, item, attr. simpl. run_cmd.
  destruct (get_player w player_id) as [r|] eqn:Hg; simpl.
  - destruct (get_player_valid w player_id r Hg) as (p & Hp & _). rewrite Hp. simpl.
    eexists. split; [reflexivity|]. split; [reflexivity|].
    rewrite existsb_Card_eq. split.
    + intros Hin. exists r, p. auto.
    + intros (r' & p' & Hr' & Hp' & Hin). injection Hr' as <-. congruence.
  - exists false. split; [reflexivity|]. split; [reflexivity|].
    split; [discriminate|]. intros (r & p & Hr & _). discriminate Hr.
Qed.

(** X10.  A suit call can never be executed.  With the validators of
    the [CallSuit] rule, whatever its executor is, [process] leaves the
    state as it is and ends either in "Action validation failed" or in
    an exception: when the phase and turn checks let the call through,
    [ValidSuit] reads [game.deck], which the game object does not
    have. *)
Theorem call_suit_never_executed (fuel : nat) (e : executors.Executor)
    (suit : string) (w : World) :
  ∃ out,
    process fuel
      (rule [validators.CorrectPhase; validators.PlayersTurn; validators.ValidSuit] e)
      (actions.CallSuit suit) w = (w, out) ∧
    (out = Ret (Some (result false "Action validation failed")) ∨ ∃ x, out = Raise x).
Proof.
  unfold process, logic.process, bind, get, lift. simpl.
  destruct (Phase_eqb (phase w) PICK_SUIT); simpl;
    [|eexists; split; [reflexivity|left; reflexivity]].
  destruct (validators.PlayersTurn_validate (actions.CallSuit suit) w) as [[|]|x]; simpl;
    eexists; (split; [reflexivity|]);
    [right; eauto|left; reflexivity|right; eauto].
Qed.

(** X11.  A pass as the action builder makes it can never be executed.
    With the validators of the [Pass] rule, whatever its executor is,
    [process] leaves the state as it is and ends either in "Action
    validation failed" or in an exception: when the phase and turn
    checks let the pass through, [CanPass] looks up the [player_id] that
    a [Pass] action does not carry. *)
Theorem pass_never_executed (fuel : nat) (e : executors.Executor) (w : World) :
  ∃ out,
    process fuel
      (rule [validators.CorrectPhase; validators.PlayersTurn; validators.CanPass] e)
      actions.Pass w = (w, out) ∧
    (out = Ret (Some (result false "Action validation failed")) ∨ ∃ x, out = Raise x).
Proof.
  unfold process, logic.process, bind, get, lift. simpl.
  destruct (Phase_eqb (phase w) PICKUP_CARD || Phase_eqb (phase w) PICK_SUIT); simpl;
    [|eexists; split; [reflexivity|left; reflexivity]].
  destruct (validators.PlayersTurn_validate actions.Pass w) as [[|]|x]; simpl;
    eexists; (split; [reflexivity|]);
    [right; eauto|left; reflexivity|right; eauto].
Qed.

Lemma TrickOver_slots_empty (action : Action) (w : World) (k : string) (sl : Slot) :
  validators.TrickOver_validate action w = Ret true →
  slots w !! k = Some sl →
  cards sl = [].
Proof.
  unfold validators.TrickOver_validate. intros [= Hall] Hk.
  rewrite forallb_forall in Hall.
  assert (Hin : In (k, sl) (map_to_list (slots w))).
  { apply list_elem_of_In. apply elem_of_map_to_list. exact Hk. }
  specialize (Hall _ Hin). simpl in Hall.
  apply bool_decide_eq_true in Hall. destruct (cards sl); [reflexivity|discriminate].
Qed.

(** Trick scoring on a board whose slots hold no cards changes nothing
    and does not succeed. *)
Lemma ScoreTrick_on_empty_board (action : Action) (w : World) :
  validators.TrickOver_validate action w = Ret true →
  ∃ out,
    executors.ScoreTrick_execute action w = (w, out) ∧
    ∀ r, out = Ret r → ∃ res, r = Some res ∧ success res = false.
Proof.
  intros Hempty.
  unfold executors.ScoreTrick_execute, executors.ScoreTrick_select, players_index,
    bind, gets.
  destruct (current_player w) as [s|];
    [|eexists; split; [reflexivity|intros r Hr; discriminate Hr]].
  case_bool_decide as Hs;
    [|eexists; split; [reflexivity|intros r Hr; discriminate Hr]].
  destruct (length (players w)) as [|n] eqn:Hn; [lia|].
  cbn [seq executors.gather]. unfold bind, players_at, gets.
  rewrite Hn.
  assert (Hlt : ((s + 0) `mod` S n < S n)%nat) by (apply Nat.mod_upper_bound; lia).
  rewrite bool_decide_true by exact Hlt. cbn [attr].
  destruct (players w !! ((s + 0) `mod` S n)%nat) as [p|] eqn:Hp.
  - cbn beta iota.
    destruct (slots w !! id p) as [sl|] eqn:Hsl.
    + rewrite (TrickOver_slots_empty action w (id p) sl Hempty Hsl). cbn [last].
      unfold ret, executors.returns. cbn beta iota. eexists. split; [reflexivity|].
      intros r [= <-]. eexists. split; reflexivity.
    + unfold ret, executors.returns. cbn beta iota. eexists. split; [reflexivity|].
      intros r [= <-]. eexists. split; reflexivity.
  - eexists. split; [reflexivity|intros r Hr; discriminate Hr].
Qed.

(** X12.  The [trick_over] rule can never score a trick.  Its validator
    [TrickOver] lets an action through only when every slot is empty,
    and trick scoring needs a card in every slot: whatever the action
    and the state, [process] leaves the state as it is and never
    returns a successful result. *)
Theorem trick_over_rule_never_scores (fuel : nat) (action : Action) (w : World) :
  ∃ out,
    process fuel rules.TrickOver action w = (w, out) ∧
    ∀ r, out = Ret (Some r) → success r = false.
Proof.
  unfold process, logic.process, bind, get, lift.
  change (logic.run_validators validators.validate (validators rules.TrickOver) action w)
    with (match validators.CorrectPhase_validate action w with
          | Raise e => Raise e
          | Ret false => Ret false
          | Ret true =>
              match validators.TrickOver_validate action w with
              | Raise e => Raise e
              | Ret false => Ret false
              | Ret true => Ret true
              end
          end).
  destruct (validators.CorrectPhase_validate action w) as [[|]|x0];
    [|eexists; split; [reflexivity|intros r [= <-]; reflexivity]
     |eexists; split; [reflexivity|intros r Hr; discriminate Hr]].
  destruct (validators.TrickOver_validate action w) as [[|]|x] eqn:Hempty;
    [|eexists; split; [reflexivity|intros r [= <-]; reflexivity]
     |eexists; split; [reflexivity|intros r Hr; discriminate Hr]].
  cbn [negb]. cbv iota. destruct fuel as [|fuel]; simpl.
  - eexists. split; [reflexivity|]. intros r Hr. discriminate Hr.
  - unfold bind.
    destruct (ScoreTrick_on_empty_board action w Hempty) as (out & Hrun & Hout).
    rewrite Hrun. destruct out as [[res|]|x]; simpl.
    + destruct (Hout _ eq_refl) as (res' & [= <-] & Hres). rewrite Hres. simpl.
      eexists. split; [reflexivity|]. intros r [= <-]. exact Hres.
    + destruct (Hout _ eq_refl) as (res' & Hnone & _). discriminate Hnone.
    + eexists. split; [reflexivity|]. intros r Hr. discriminate Hr.
Qed.

(** ** euchre/executors.py: the deck, pickup, discard and play *)

(** X13.  The deck is out of reach of the engine.  [Game.__init__] hands
    the deck to the board and the game object has no [deck] attribute,
    so the pickup and the deal executors raise AttributeError on their
    first line, with the state as it was (the [except ValueError] of
    the pickup does not catch it), and so does the suit check on every
    suit call that carries a suit. *)
Theorem deck_out_of_reach (fuel : nat) (self : Rule) (action : Action)
    (rest : list executors.Executor) (suit : string) (w : World) :
  run_executors (S fuel) self action (executors.PickUp :: rest) w
  = (w, Raise (AttributeError "'EuchreGame' object has no attribute 'deck'")) ∧
  run_executors (S fuel) self action (executors.Deal :: rest) w
  = (w, Raise (AttributeError "'EuchreGame' object has no attribute 'deck'")) ∧
  validators.ValidSuit_validate (actions.CallSuit suit) w
  = Raise (AttributeError "'EuchreGame' object has no attribute 'deck'").
Proof. repeat split; reflexivity. Qed.

(** X15.  A discard never succeeds, but it always unblocks.  For a
    discard action as the builder makes it, the player named is taken
    off the blocking list first; then, if that player has a connection,
    the executor raises TypeError on [connection[1]], and if not it
    returns the failed result "Card not in hand".  Hands, slots and
    phase are as before. *)
Theorem Discard_fails_but_unblocks (w : World) (card : Card) (player_id : string) :
  ∃ w',
    executors.Discard_execute (actions.Discard card player_id) w
    = (w', match lookup_connection (connections w) player_id with
           | Some _ => Raise (TypeError "'Connection' object is not subscriptable")
           | None => Ret (Some (result false "Card not in hand"))
           end) ∧
    blocking_on_discard w'
    = remove_first ref_eqb (get_player w player_id) (blocking_on_discard w) ∧
    players w' = players w ∧ slots w' = slots w ∧ phase w' = phase w.
Proof.
  unfold executors.Discard_execute, remove_blocking_discard, get_connection, conn_getitem,
    item. simpl. run_cmd.
  assert (Hrem : ∀ (o : option nat) l, o ∉ l → remove_first ref_eqb o l = l).
  { intros o l. induction l as [|y l IH]; intros Hnotin; simpl; [reflexivity|].
    unfold ref_eqb at 1. case_bool_decide as Heq.
    - exfalso. apply Hnotin. subst y. apply list_elem_of_here.
    - f_equal. apply IH. intros Hin. apply Hnotin. apply list_elem_of_further. exact Hin. }
  case_bool_decide as Hin; simpl;
    destruct (lookup_connection (connections w) player_id); simpl;
    eexists; (split; [reflexivity|]); simpl; repeat split; try reflexivity;
    symmetry; apply Hrem; exact Hin.
Qed.

(** X16.  No play is ever made.  Whatever the action and the state, the
    play rule leaves the state as it is and ends in "Action validation
    failed" or in an exception: when the three validators pass, the
    current player has a connection, and the executor raises TypeError
    on [connection[1]] before a card is touched. *)
Theorem play_never_made (fuel : nat) (action : Action) (w : World) :
  ∃ out,
    process (S fuel) rules.PlayCard action w = (w, out) ∧
    (out = Ret (Some (result false "Action validation failed")) ∨ ∃ x, out = Raise x).
Proof.
  unfold process, logic.process, bind, get, lift.
  change (logic.run_validators validators.validate (validators rules.PlayCard) action w)
    with (match validators.CorrectPhase_validate action w with
          | Raise e => Raise e
          | Ret false => Ret false
          | Ret true =>
              match validators.PlayersTurn_validate action w with
              | Raise e => Raise e
              | Ret false => Ret false
              | Ret true =>
                  match validators.HasCard_validate action w with
                  | Raise e => Raise e
                  | Ret false => Ret false
                  | Ret true => Ret true
                  end
              end
          end).
  destruct (validators.CorrectPhase_validate action w) as [[|]|x];
    [|eexists; split; [reflexivity|left; reflexivity]
     |eexists; split; [reflexivity|right; eauto]].
  destruct (validators.PlayersTurn_validate action w) as [[|]|x] eqn:Hturn;
    [|eexists; split; [reflexivity|left; reflexivity]
     |eexists; split; [reflexivity|right; eauto]].
  destruct (validators.HasCard_validate action w) as [[|]|x];
    [|eexists; split; [reflexivity|left; reflexivity]
     |eexists; split; [reflexivity|right; eauto]].
  cbn [negb]. cbv iota.
  change (logic.run_executors executors.execute (S fuel) rules.PlayCard action
            [executor rules.PlayCard] w)
    with (run_executors (S fuel) rules.PlayCard action [executors.PlayCard] w).
  unfold run_executors.
  assert (Hexec : ∃ x, executors.PlayCard_execute action w = (w, Raise x)).
  { unfold validators.PlayersTurn_validate, validators.observe, attr, get_connection in Hturn.
    unfold executors.PlayCard_execute, item, attr, get_connection, conn_getitem.
    unfold bind, ret, raise, gets in *.
    destruct (p_card (payload action)); [|eexists; reflexivity].
    destruct (current_player w) as [s|]; [|eexists; reflexivity].
    destruct (players w !! s) as [p|]; [|eexists; reflexivity].
    simpl in *.
    destruct (lookup_connection (connections w) (id p)) as [conn|];
      [eexists; reflexivity|].
    simpl in Hturn. discriminate Hturn. }
  destruct Hexec as [x Hexec].
  rewrite (run_executors_raise_head executors.execute fuel rules.PlayCard action
             executors.PlayCard [] w w x Hexec).
  eexists. split; [reflexivity|right; eauto].
Qed.

(** X18.  No card ever moves.  Whatever rule, action, list of executors
    and state the engine is run on, and whether it ends with a result or
    an exception, afterwards every hand and the deck are as they were,
    every slot holds the cards it held or none, and the hand scores are
    as they were or zero: nothing is dealt, picked up, played or
    scored. *)
Theorem no_card_ever_moves (fuel : nat) (self : Rule) (action : Action)
    (es : list executors.Executor) (w : World) :
  undealt w (run_executors fuel self action es w).1 ∧
  undealt w (process fuel self action w).1.
Proof.
  split; [apply run_executors_undealt|].
  unfold process, logic.process, bind, get, lift.
  destruct (logic.run_validators validators.validate (validators self) action w)
    as [[|]|x]; simpl; try apply undealt_refl.
  apply (run_executors_undealt fuel self action [executor self] w).
Qed.

(** ** euchre/executors.py: the end of a hand *)

(** X21.  What hand scoring does after the award.  The winner is team 1
    only when its hand score is strictly higher: on equal hand scores
    team 2 wins.  If the winner's game score has reached 10 the phase is
    END_GAME, the hand scores are left as they are and the only
    follow-up is the broadcast of the result.  Otherwise the phase is
    DEAL, both hand scores are 0 again, and the follow-ups are a
    broadcast, clearing the board, advancing the dealer and dealing, in
    that order. *)
Theorem ScoreHand_transition (action : Action) (w : World) (h1 h2 s1 s2 : Z) :
  hand_score w !! 1 = Some h1 →
  hand_score w !! 2 = Some h2 →
  score w !! 1 = Some s1 →
  score w !! 2 = Some s2 →
  ∃ winner total w' r,
    executors.ScoreHand_execute action w = (w', Ret (Some r)) ∧
    (h2 < h1 → winner = 1) ∧
    (h1 ≤ h2 → winner = 2) ∧
    score w' !! winner = Some total ∧
    (10 ≤ total →
     phase w' = END_GAME ∧ hand_score w' = hand_score w ∧
     follow_up_actions r
     = [executors.Broadcast (Some ("Team " +:+ str_int winner +:+ " wins the game!"))]) ∧
    (total < 10 →
     phase w' = DEAL ∧
     hand_score w' !! 1 = Some 0 ∧ hand_score w' !! 2 = Some 0 ∧
     ∃ msg, follow_up_actions r
            = [executors.Broadcast (Some msg); executors.ClearBoard;
               executors.AdvanceDealer; executors.Deal]).
Proof.
  intros Hh1 Hh2 Hs1 Hs2.
  unfold executors.ScoreHand_execute. run_cmd. rewrite Hh1, Hh2. simpl.
  destruct (Z.ltb_spec h2 h1) as [Hlt|Hge].
  - rewrite Hs1. simpl. rewrite lookup_insert_eq. simpl.
    set (points := if (5 <=? Z.max h1 h2) || negb (bool_decide (Some 1 = calling_team w))
                   then 2 else 1).
    destruct (Z.leb_spec 10 (s1 + points)) as [Hend|Hgo]; simpl.
    + eexists 1, (s1 + points), _, _. split; [reflexivity|]. simpl.
      split; [reflexivity|]. split; [lia|]. split; [apply lookup_insert_eq|].
      split; [intros _; repeat split; reflexivity|intros Hc; lia].
    + rewrite lookup_insert_eq. rewrite lookup_insert_ne by lia. rewrite Hs2. simpl.
      eexists 1, (s1 + points), _, _. split; [reflexivity|]. simpl.
      split; [reflexivity|]. split; [lia|]. split; [apply lookup_insert_eq|].
      split; [intros Hc; lia|]. intros _. repeat split; try reflexivity.
      eexists. reflexivity.
  - rewrite Hs2. simpl. rewrite lookup_insert_eq. simpl.
    set (points := if (5 <=? Z.max h1 h2) || negb (bool_decide (Some 2 = calling_team w))
                   then 2 else 1).
    destruct (Z.leb_spec 10 (s2 + points)) as [Hend|Hgo]; simpl.
    + eexists 2, (s2 + points), _, _. split; [reflexivity|]. simpl.
      split; [lia|]. split; [reflexivity|]. split; [apply lookup_insert_eq|].
      split; [intros _; repeat split; reflexivity|intros Hc; lia].
    + rewrite lookup_insert_eq. rewrite lookup_insert_ne by lia. rewrite Hs1. simpl.
      eexists 2, (s2 + points), _, _. split; [reflexivity|]. simpl.
      split; [lia|]. split; [reflexivity|]. split; [apply lookup_insert_eq|].
      split; [intros Hc; lia|]. intros _. repeat split; try reflexivity.
      eexists. reflexivity.
Qed.

Lemma ScoreHand_transition_witness :
  ∃ winner total w' r,
    executors.ScoreHand_execute Scenario.tick Scenario.euchred = (w', Ret (Some r)) ∧
    (3 < 2 → winner = 1) ∧
    (2 ≤ 3 → winner = 2) ∧
    score w' !! winner = Some total ∧
    (10 ≤ total →
     phase w' = END_GAME ∧ hand_score w' = hand_score Scenario.euchred ∧
     follow_up_actions r
     = [executors.Broadcast (Some ("Team " +:+ str_int winner +:+ " wins the game!"))]) ∧
    (total < 10 →
     phase w' = DEAL ∧
     hand_score w' !! 1 = Some 0 ∧ hand_score w' !! 2 = Some 0 ∧
     ∃ msg, follow_up_actions r
            = [executors.Broadcast (Some msg); executors.ClearBoard;
               executors.AdvanceDealer; executors.Deal]).
Proof.
  refine (ScoreHand_transition Scenario.tick Scenario.euchred 2 3 0 0 _ _ _ _);
    reflexivity.
Defined.

(** X22.  Clearing the board never fails.  Every slot keeps its key and
    its face-up flag and loses its cards, trump and calling team are
    forgotten, hands and deck are untouched; afterwards the [TrickOver]
    validator, which asks for empty slots, holds. *)
Theorem ClearBoard_empties_slots (action other : Action) (w : World) :
  ∃ w',
    executors.ClearBoard_execute action w
    = (w', Ret (Some (result true "Board cleared"))) ∧
    (∀ k, slots w' !! k = (fun s => mkSlot [] (face_up s)) <$> slots w !! k) ∧
    trump_suit w' = None ∧
    calling_team w' = None ∧
    players w' = players w ∧
    deck w' = deck w ∧
    validators.TrickOver_validate other w' = Ret true.
Proof.
  unfold executors.ClearBoard_execute. run_cmd.
  eexists. split; [reflexivity|]. simpl.
  split; [intros k; apply lookup_fmap|].
  repeat split.
  unfold validators.TrickOver_validate. simpl. f_equal.
  apply forallb_forall. intros [k sl] Hin.
  apply list_elem_of_In, elem_of_map_to_list in Hin.
  rewrite lookup_fmap in Hin.
  destruct (slots w !! k) as [s0|]; simpl in Hin; [|discriminate].
  injection Hin as <-. reflexivity.
Qed.

(** ** euchre/executors.py: the dealer seat *)

Lemma AdvanceDealer_step (action : Action) (w : World) (d : nat) :
  current_dealer w = Some d →
  (d < length (players w))%nat →
  executors.AdvanceDealer_execute action w
  = (with_current_dealer (Some ((d + 1) `mod` length (players w))%nat) w,
     Ret (Some (result true
                  ("Dealer advanced to " +:+
                   fmt_player w (Some ((d + 1) `mod` length (players w))%nat))))).
Proof.
  intros Hd Hlt.
  assert (Hmod : ((d + 1) `mod` length (players w) < length (players w))%nat)
    by (apply Nat.mod_upper_bound; lia).
  unfold executors.AdvanceDealer_execute, players_index, next_index, players_at.
  run_cmd. rewrite Hd. rewrite bool_decide_true by exact Hlt. simpl.
  rewrite bool_decide_false by lia. simpl.
  rewrite bool_decide_true by exact Hmod. simpl. reflexivity.
Qed.

Lemma advance_dealer_times_spec (action : Action) (k : nat) (w : World) (d : nat) :
  current_dealer w = Some d →
  (d < length (players w))%nat →
  current_dealer (advance_dealer_times action k w)
  = Some ((d + k) `mod` length (players w))%nat ∧
  players (advance_dealer_times action k w) = players w.
Proof.
  intros Hd Hlt. induction k as [|k [IHd IHp]].
  - simpl. rewrite Nat.add_0_r, Nat.mod_small by exact Hlt. auto.
  - unfold advance_dealer_times in *. simpl.
    set (v := Nat.iter k _ w) in *.
    assert (Hv : ((d + k) `mod` length (players w) < length (players v))%nat)
      by (rewrite IHp; apply Nat.mod_upper_bound; lia).
    rewrite (AdvanceDealer_step action v _ IHd Hv).
    simpl. rewrite IHp. split; [|reflexivity]. f_equal.
    rewrite Nat.Div0.add_mod_idemp_l. f_equal. lia.
Qed.

(** X23.  The deal goes round.  With the dealer seated, one advance
    makes the next seat (modulo the table size) the dealer, and as many
    advances as there are players bring the deal back to the same
    dealer. *)
Theorem AdvanceDealer_full_circle (action : Action) (w : World) (d : nat) :
  current_dealer w = Some d →
  (d < length (players w))%nat →
  current_dealer (advance_dealer_times action 1 w)
  = Some ((d + 1) `mod` length (players w))%nat ∧
  current_dealer (advance_dealer_times action (length (players w)) w) = Some d.
Proof.
  intros Hd Hlt. split.
  - apply (advance_dealer_times_spec action 1 w d Hd Hlt).
  - rewrite (proj1 (advance_dealer_times_spec action _ w d Hd Hlt)). f_equal.
    rewrite <- Nat.Div0.add_mod_idemp_r, Nat.Div0.mod_same, Nat.add_0_r.
    apply Nat.mod_small. exact Hlt.
Qed.

Lemma AdvanceDealer_full_circle_witness :
  current_dealer Scenario.mid_trick = Some 0%nat ∧
  (0 < length (players Scenario.mid_trick))%nat ∧
  current_dealer (advance_dealer_times Scenario.tick 1 Scenario.mid_trick)
  = Some ((0 + 1) `mod` length (players Scenario.mid_trick))%nat ∧
  current_dealer
    (advance_dealer_times Scenario.tick (length (players Scenario.mid_trick)) Scenario.mid_trick)
  = Some 0%nat.
Proof.
  assert (H1 : current_dealer Scenario.mid_trick = Some 0%nat) by reflexivity.
  assert (H2 : (0 < length (players Scenario.mid_trick))%nat) by (vm_compute; lia).
  split; [exact H1|]. split; [exact H2|].
  exact (AdvanceDealer_full_circle Scenario.tick Scenario.mid_trick 0 H1 H2).
Defined.

(** ** euchre/executors.py: the winner of a trick *)

Lemma max_from_first {A} (key : A → Z) (l : list A) (best : A) :
  ∃ l1 l2,
    best :: l = l1 ++ max_from key best l :: l2 ∧
    (∀ y, y ∈ l1 → key y < key (max_from key best l)) ∧
    (∀ y, y ∈ l2 → key y ≤ key (max_from key best l)).
Proof.
  revert best. induction l as [|y l IH]; intros best.
  - exists [], []. split; [reflexivity|].
    split; intros z Hz; apply elem_of_nil in Hz; destruct Hz.
  - unfold max_from; fold (@max_from A).
    destruct (Z.ltb_spec (key best) (key y)) as [Hlt|Hge].
    + destruct (IH y) as (l1 & l2 & Heq & Hbefore & Hafter).
      exists (best :: l1), l2. split; [simpl; rewrite <- Heq; reflexivity|].
      split; [|exact Hafter].
      intros z Hz. apply elem_of_cons in Hz as [->|Hz]; [|apply Hbefore; exact Hz].
      pose proof (proj2 (max_from_spec key l y) y (list_elem_of_here _ _)). lia.
    + destruct (IH best) as (l1 & l2 & Heq & Hbefore & Hafter).
      destruct l1 as [|b l1].
      * simpl in Heq. injection Heq as Hm Hl.
        exists [], (y :: l). split; [simpl; rewrite <- Hm; reflexivity|].
        split; [intros z Hz; apply elem_of_nil in Hz; destruct Hz|].
        intros z Hz. apply elem_of_cons in Hz as [->|Hz].
        -- rewrite <- Hm. lia.
        -- apply (proj2 (max_from_spec key l best)). apply list_elem_of_further. exact Hz.
      * simpl in Heq. injection Heq as Hb Hl. subst b.
        exists (best :: y :: l1), l2. split; [simpl; do 2 f_equal; exact Hl|].
        split; [|exact Hafter].
        assert (Hbest : key best < key (max_from key best l))
          by (apply Hbefore; apply list_elem_of_here).
        intros z Hz. apply elem_of_cons in Hz as [->|Hz]; [exact Hbest|].
        apply elem_of_cons in Hz as [->|Hz]; [lia|].
        apply Hbefore. apply list_elem_of_further. exact Hz.
Qed.

(** X24.  Ties go to the earlier play.  In the order in which trick
    scoring reads the plays, every play before the winner has a
    strictly smaller adjusted value, and no play after it has a greater
    one. *)
Theorem trick_winner_earliest (trump : option string) (first : nat * Card)
    (rest : list (nat * Card)) :
  ∃ before after,
    first :: rest = before ++ trick_winner trump first rest :: after ∧
    (∀ pc, pc ∈ before →
       executors.card_value (suit first.2) trump pc.2
       < executors.card_value (suit first.2) trump (trick_winner trump first rest).2) ∧
    (∀ pc, pc ∈ after →
       executors.card_value (suit first.2) trump pc.2
       ≤ executors.card_value (suit first.2) trump (trick_winner trump first rest).2).
Proof.
  unfold trick_winner.
  exact (max_from_first
           (fun pc : nat * Card => executors.card_value (suit first.2) trump pc.2)
           rest first).
Qed.

Lemma rank_index_bound (r : string) (i : nat) : rank_index r = Some i → (i < 6)%nat.
Proof.
  unfold rank_index, EuchreDeck.RANKS. cbn [index_from].
  repeat (match goal with
          | |- context [String.eqb ?a r] => destruct (String.eqb a r)
          end; [intros [= <-]; lia|]).
  discriminate.
Qed.

Lemma rank_index_lookup (r : string) (i : nat) :
  rank_index r = Some i → EuchreDeck.RANKS !! i = Some r.
Proof.
  unfold rank_index, EuchreDeck.RANKS. cbn [index_from].
  repeat (match goal with
          | |- context [String.eqb ?a r] => destruct (String.eqb_spec a r) as [<-|?]
          end; [intros [= <-]; reflexivity|]).
  discriminate.
Qed.

Lemma rank_index_inj (r r' : string) (i : nat) :
  rank_index r = Some i → rank_index r' = Some i → r = r'.
Proof.
  intros H H'. apply rank_index_lookup in H, H'. congruence.
Qed.

(** Two cards of the base order with the same adjusted value of at
    least 10 are the same card. *)
Lemma card_value_high_inj (led : string) (trump : option string) (c c' : Card) (i j : nat) :
  rank_index (rank c) = Some i →
  rank_index (rank c') = Some j →
  10 ≤ executors.card_value led trump c →
  executors.card_value led trump c = executors.card_value led trump c' →
  c = c'.
Proof.
  intros Hi Hj Hhigh Heq.
  rewrite (card_value_formula led trump c i Hi) in Hhigh, Heq.
  rewrite (card_value_formula led trump c' j Hj) in Heq.
  pose proof (rank_index_bound _ _ Hi). pose proof (rank_index_bound _ _ Hj).
  destruct c as [r s], c' as [r' s']. simpl in *.
  destruct (decide (s = led)) as [Hs|Hs].
  - rewrite (bool_decide_true (s = led)) in Hhigh, Heq by exact Hs.
    destruct (decide (s' = led)) as [Hs'|Hs'].
    + rewrite (bool_decide_true (s' = led)) in Heq by exact Hs'.
      assert (i = j) by lia. subst j.
      rewrite (rank_index_inj r r' i Hi Hj). congruence.
    + rewrite (bool_decide_false (s' = led)) in Heq by exact Hs'.
      destruct (bool_decide (Some s' = trump)); lia.
  - rewrite (bool_decide_false (s = led)) in Hhigh, Heq by exact Hs.
    destruct (decide (Some s = trump)) as [Ht|Ht].
    + rewrite (bool_decide_true (Some s = trump)) in Hhigh, Heq by exact Ht.
      destruct (decide (s' = led)) as [Hs'|Hs'].
      * rewrite (bool_decide_true (s' = led)) in Heq by exact Hs'. lia.
      * rewrite (bool_decide_false (s' = led)) in Heq by exact Hs'.
        destruct (decide (Some s' = trump)) as [Ht'|Ht'].
        -- rewrite (bool_decide_true (Some s' = trump)) in Heq by exact Ht'.
           assert (i = j) by lia. subst j.
           rewrite (rank_index_inj r r' i Hi Hj). congruence.
        -- rewrite (bool_decide_false (Some s' = trump)) in Heq by exact Ht'. lia.
    + rewrite (bool_decide_false (Some s = trump)) in Hhigh by exact Ht. lia.
Qed.

(** X25.  The winner is unique.  When all cards of a trick are of ranks 9
    to A, every play of a card other than the winning card has a
    strictly smaller adjusted value than the winner: the first play is
    of the led suit, so the winning value is at least 10, and from 10
    upwards a value determines the card. *)
Theorem trick_winner_unique (trump : option string) (first : nat * Card)
    (rest : list (nat * Card)) :
  (∀ pc, pc ∈ first :: rest → is_Some (rank_index (rank pc.2))) →
  ∀ pc, pc ∈ first :: rest →
        pc.2 ≠ (trick_winner trump first rest).2 →
        executors.card_value (suit first.2) trump pc.2
        < executors.card_value (suit first.2) trump (trick_winner trump first rest).2.
Proof.
  intros Hranks pc Hpc Hne. unfold trick_winner in *.
  set (key := fun pc : nat * Card => executors.card_value (suit first.2) trump pc.2) in *.
  destruct (max_from_spec key rest first) as [Hin Hmax].
  set (m := max_from key first rest) in *.
  destruct (Hranks first (list_elem_of_here _ _)) as [i0 Hi0].
  destruct (Hranks m Hin) as [i Hi]. destruct (Hranks pc Hpc) as [j Hj].
  assert (Hfirst : 10 ≤ key first).
  { unfold key. rewrite (card_value_formula _ trump first.2 i0 Hi0).
    rewrite (bool_decide_true (suit first.2 = suit first.2)) by reflexivity. lia. }
  pose proof (Hmax first (list_elem_of_here _ _)) as Hfm.
  pose proof (Hmax pc Hpc) as Hle.
  destruct (decide (key pc = key m)) as [Heq|Hneq]; [|change (key pc < key m); lia].
  exfalso. apply Hne. symmetry.
  apply (card_value_high_inj (suit first.2) trump m.2 pc.2 i j Hi Hj).
  - change (10 ≤ key m). lia.
  - change (key m = key pc). lia.
Qed.

Lemma trick_winner_unique_witness :
  (∀ pc, pc ∈ (1%nat, mkCard "A" "Hearts") ::
              [(2%nat, mkCard "10" "Hearts"); (3%nat, mkCard "9" "Spades");
               (0%nat, mkCard "K" "Clubs")] →
         is_Some (rank_index (rank pc.2))) ∧
  executors.card_value (suit (1%nat, mkCard "A" "Hearts").2) (Some "Spades")
    (1%nat, mkCard "A" "Hearts").2
  < executors.card_value (suit (1%nat, mkCard "A" "Hearts").2) (Some "Spades")
      (trick_winner (Some "Spades") (1%nat, mkCard "A" "Hearts")
         [(2%nat, mkCard "10" "Hearts"); (3%nat, mkCard "9" "Spades");
          (0%nat, mkCard "K" "Clubs")]).2.
Proof.
  assert (H : ∀ pc, pc ∈ (1%nat, mkCard "A" "Hearts") ::
                         [(2%nat, mkCard "10" "Hearts"); (3%nat, mkCard "9" "Spades");
                          (0%nat, mkCard "K" "Clubs")] →
                    is_Some (rank_index (rank pc.2))).
  { intros pc Hpc.
    repeat (apply elem_of_cons in Hpc as [->|Hpc]; [eexists; reflexivity|]).
    apply elem_of_nil in Hpc. destruct Hpc. }
  split; [exact H|].
  apply (trick_winner_unique (Some "Spades") (1%nat, mkCard "A" "Hearts")
           [(2%nat, mkCard "10" "Hearts"); (3%nat, mkCard "9" "Spades");
            (0%nat, mkCard "K" "Clubs")] H (1%nat, mkCard "A" "Hearts")).
  - apply list_elem_of_here.
  - vm_compute. discriminate.
Defined.

(** ** The drain over the Euchre executors terminates *)

Lemma shallow_bind {A} (d : nat) (m : Cmd A) (k : A → executors.Exec) :
  (∀ a, shallow d (k a)) → shallow d (bind m k).
Proof.
  intros Hk w w' r. unfold bind. destruct (m w) as [w1 [a|x]]; [|discriminate].
  apply Hk.
Qed.

Lemma shallow_returns (d : nat) (r : executors.Result) :
  Forall (fun e => (depth e < d)%nat) (follow_up_actions r) →
  shallow d (executors.returns r).
Proof. intros Hr w w' r' [= <- <-]. exact Hr. Qed.

Lemma shallow_raise (d : nat) (x : Exn) : shallow d (raise x).
Proof. intros w w' r H. discriminate H. Qed.

Lemma shallow_none (d : nat) : shallow d (ret None).
Proof. intros w w' r H. discriminate H. Qed.

Lemma shallow_try (d : nat) (m : executors.Exec) (h : string → executors.Exec) :
  shallow d m → (∀ msg, shallow d (h msg)) → shallow d (try_except_ValueError m h).
Proof.
  intros Hm Hh w w' r. unfold try_except_ValueError.
  destruct (m w) as [w1 [a|x]] eqn:Hmw.
  - intros [= <- ->]. exact (Hm w w1 r Hmw).
  - destruct x; try discriminate. apply Hh.
Qed.

Lemma shallow_bind_post {A} (P : A → Prop) (d : nat) (m : Cmd A)
    (k : A → executors.Exec) :
  post P m → (∀ a, P a → shallow d (k a)) → shallow d (bind m k).
Proof.
  intros Hm Hk w w' r. unfold bind. destruct (m w) as [w1 [a|x]] eqn:Hmw; [|discriminate].
  apply Hk. exact (Hm w w1 a Hmw).
Qed.

Lemma post_bind {A B} (P : B → Prop) (m : Cmd A) (k : A → Cmd B) :
  (∀ a, post P (k a)) → post P (bind m k).
Proof.
  intros Hk w w' b. unfold bind. destruct (m w) as [w1 [a|x]]; [|discriminate].
  apply Hk.
Qed.

Lemma post_ret {A} (P : A → Prop) (a : A) : P a → post P (ret a).
Proof. intros Ha w w' a' [= <- <-]. exact Ha. Qed.

(** A result [gather] returns early carries no follow-ups. *)
Lemma gather_failed_plain (n start : nat) (idx : list nat) (acc : list (nat * Card)) :
  post (fun g => match g with
                 | inl failed => follow_up_actions failed = []
                 | inr _ => True
                 end)
       (executors.gather n start idx acc).
Proof.
  revert acc. induction idx as [|i idx IH]; intros acc; simpl.
  - apply post_ret. exact I.
  - apply post_bind; intros player. apply post_bind; intros pid.
    apply post_bind; intros sl.
    destruct sl as [s|], player as [r|]; try (apply post_ret; reflexivity).
    destruct (last (cards s)); [apply IH | apply post_ret; reflexivity].
Qed.

Lemma ScoreTrick_select_failed_plain :
  post (fun sel => match sel with
                   | inl failed => follow_up_actions failed = []
                   | inr _ => True
                   end)
       executors.ScoreTrick_select.
Proof.
  unfold executors.ScoreTrick_select.
  do 3 (apply post_bind; intros ?).
  intros w w' sel. unfold bind.
  destruct (executors.gather a1 a0 (seq 0 a1) [] w) as [w1 [g|x]] eqn:Hg; [|discriminate].
  pose proof (gather_failed_plain a1 a0 (seq 0 a1) [] w w1 g Hg) as Hplain.
  destruct g as [failed|played_cards].
  - intros [= _ <-]. exact Hplain.
  - unfold lift, gets, ret.
    destruct (list_getitem played_cards 0); [|discriminate].
    destruct (max_by _ played_cards); [|discriminate].
    intros [= _ <-]. exact I.
Qed.

Ltac shallow_step :=
  first
    [ apply shallow_bind; intros ?
    | apply shallow_returns; simpl; repeat constructor; simpl; lia
    | apply shallow_raise
    | apply shallow_none
    | apply shallow_try; [|intros ?]
    | match goal with
      | |- shallow _ (if ?c then _ else _) => destruct c
      | |- shallow _ (match ?x with _ => _ end) => destruct x
      end ].

Lemma follow_ups_shallower (e : executors.Executor) (action : Action) :
  shallow (depth e) (executors.execute e action).
Proof.
  destruct e; simpl depth; unfold executors.execute;
    try (unfold executors.PickUp_execute);
    try (unfold executors.Reneg_execute, executors.Reneg_upheld, executors.Reneg_rejected);
    try (unfold executors.PlayCard_execute);
    try (unfold executors.NotifyCurrentPlayer_execute);
    try (unfold executors.AdvanceDealer_execute);
    try (unfold executors.NotifyDealer_execute);
    try (unfold executors.Broadcast_execute);
    try (unfold executors.Deal_execute);
    try (unfold executors.Discard_execute);
    try (unfold executors.AdvanceTurn_execute);
    try (unfold executors.SetPlayerToDealersLeft_execute);
    try (unfold executors.SetDealer_execute);
    try (unfold executors.SetTrumpSuit_execute);
    try (unfold executors.ClearBoard_execute);
    try (unfold executors.ScoreHand_execute);
    try (repeat shallow_step; fail).
  unfold executors.ScoreTrick_execute.
  eapply shallow_bind_post; [apply ScoreTrick_select_failed_plain|].
  intros [failed|[winner winning_card]] Hsel.
  - apply shallow_returns. rewrite Hsel. constructor.
  - unfold executors.ScoreTrick_award. repeat shallow_step.
Qed.


Lemma run_level_depth (d : nat) (action : Action) (es acc : list executors.Executor)
    (w w' : World) (fu : list executors.Executor) :
  Forall (fun e => (depth e < Datatypes.S d)%nat) es →
  Forall (fun e => (depth e < d)%nat) acc →
  logic.run_level executors.execute action es acc w = (w', Ret (inr fu)) →
  Forall (fun e => (depth e < d)%nat) fu.
Proof.
  revert acc w. induction es as [|e es IH]; intros acc w Hes Hacc; simpl.
  - intros [= _ <-]. exact Hacc.
  - apply Forall_cons in Hes as [He Hes]. unfold bind.
    destruct (executors.execute e action w) as [w1 [[r|]|x]] eqn:Hex; try discriminate.
    destruct (success r); simpl; [|discriminate].
    apply IH; [exact Hes|]. apply Forall_app. split; [exact Hacc|].
    eapply Forall_impl; [exact (follow_ups_shallower e action w w1 r Hex)|].
    simpl. intros e' He'. lia.
Qed.

Lemma run_executors_enough_fuel (fuel : nat) (self : ActionRule validators.Validator executors.Executor)
    (action : Action) (es : list executors.Executor) (w : World) :
  Forall (fun e => (depth e < Datatypes.S fuel)%nat) es →
  (logic.run_executors executors.execute (Datatypes.S fuel) self action es w).2 ≠ Ret None.
Proof.
  revert es w. induction fuel as [|fuel IH]; intros es w Hes; simpl; unfold bind;
    destruct (logic.run_level executors.execute action es [] w) as [w1 [[r|fu]|x]] eqn:Hl;
    try discriminate.
  - apply (run_level_depth 0) in Hl; [|exact Hes|constructor].
    destruct fu as [|e fu]; [discriminate|].
    apply Forall_cons in Hl as [He _]. lia.
  - apply (run_level_depth (Datatypes.S fuel)) in Hl; [|exact Hes|constructor].
    destruct fu as [|e fu]; [discriminate|].
    apply IH. exact Hl.
Qed.

Lemma depth_bound (e : executors.Executor) : (depth e < 6)%nat.
Proof. destruct e; simpl; lia. Qed.

(** X26.  The drain over the Euchre executors terminates.  No chain of
    follow-ups is longer than six levels (PlayCard, AdvanceTurn,
    ScoreTrick, ScoreHand, Deal, Broadcast), so from any list of
    executors, in any state and for any action, a depth of six already
    ends with a result or an exception, and every greater depth ends in
    the same way in the same state. *)
Theorem drain_terminates (fuel : nat) (self : ActionRule validators.Validator executors.Executor)
    (action : Action) (es : list executors.Executor) (w : World) :
  (6 ≤ fuel)%nat →
  (run_executors 6 self action es w).2 ≠ Ret None ∧
  run_executors fuel self action es w = run_executors 6 self action es w.
Proof.
  intros Hfuel. unfold run_executors.
  assert (H6 : (logic.run_executors executors.execute 6 self action es w).2 ≠ Ret None).
  { apply run_executors_enough_fuel. apply Forall_forall. intros e _. apply depth_bound. }
  split; [exact H6|].
  destruct (logic.run_executors executors.execute 6 self action es w) as [w' out] eqn:Hrun.
  exact (run_executors_more_fuel executors.execute 6 fuel self action es w w' out
           Hfuel Hrun H6).
Qed.

Lemma drain_terminates_witness :
  (6 ≤ 9)%nat ∧
  ((run_executors 6 (rule [] executors.PlayCard) (actions.Play (mkCard "A" "Hearts") "P1")
      [executors.PlayCard] Scenario.mid_trick).2 ≠ Ret None ∧
   run_executors 9 (rule [] executors.PlayCard) (actions.Play (mkCard "A" "Hearts") "P1")
     [executors.PlayCard] Scenario.mid_trick
   = run_executors 6 (rule [] executors.PlayCard) (actions.Play (mkCard "A" "Hearts") "P1")
       [executors.PlayCard] Scenario.mid_trick).
Proof.
  split; [lia|]. apply (drain_terminates 9); lia.
Defined.

(** ** Trick scoring with a play missing *)

Lemma plays_from_all (w : World) (n start a k : nat) :
  (∀ j, (a ≤ j < a + k)%nat → is_Some (top_card w ((start + j) `mod` n)%nat)) →
  is_Some (plays_from w n start (seq a k)).
Proof.
  revert a. induction k as [|k IH]; intros a Hall; simpl; [eexists; reflexivity|].
  destruct (Hall a ltac:(lia)) as [c Hc]. rewrite Hc.
  destruct (IH (Datatypes.S a)) as [l Hl]; [intros j Hj; apply Hall; lia|].
  rewrite Hl. eexists; reflexivity.
Qed.

Lemma gather_stops (w : World) (n start : nat) (idx1 : list nat) (i : nat)
    (idx2 : list nat) (acc l : list (nat * Card)) (p : Player) :
  n = length (players w) →
  n ≠ 0%nat →
  plays_from w n start idx1 = Some l →
  players w !! ((start + i) `mod` n)%nat = Some p →
  top_card w ((start + i) `mod` n)%nat = None →
  executors.gather n start (idx1 ++ i :: idx2) acc w
  = (w, Ret (inl (result false ("Player " +:+ id p +:+
                                " has not played a card this trick.")))).
Proof.
  intros Hn Hn0 Hl Hp Htop. revert acc l Hl.
  induction idx1 as [|i1 idx1 IH]; intros acc l Hl.
  - cbn [app executors.gather].
    assert (Hlt : ((start + i) `mod` n < length (players w))%nat)
      by (rewrite <- Hn; apply Nat.mod_upper_bound; exact Hn0).
    unfold top_card in Htop. rewrite Hp in Htop.
    unfold players_at, attr, bind, gets.
    rewrite bool_decide_true by exact Hlt. rewrite Hp.
    destruct (slots w !! id p) as [s|]; [|reflexivity].
    rewrite Htop. reflexivity.
  - cbn [app executors.gather]. cbn [plays_from] in Hl. unfold top_card in Hl.
    assert (Hlt : ((start + i1) `mod` n < length (players w))%nat)
      by (rewrite <- Hn; apply Nat.mod_upper_bound; exact Hn0).
    destruct (players w !! ((start + i1) `mod` n)%nat) as [p1|] eqn:Hp1; [|discriminate].
    destruct (slots w !! id p1) as [s1|] eqn:Hs1; [|discriminate].
    destruct (last (cards s1)) as [c|] eqn:Hc; [|discriminate].
    destruct (plays_from w n start idx1) as [l'|] eqn:Hl'; [|discriminate].
    unfold players_at, attr, bind, gets.
    rewrite bool_decide_true by exact Hlt. rewrite Hp1. rewrite Hs1, Hc.
    exact (IH _ l' eq_refl).
Qed.

(** X27.  Scoring a trick with a play missing: going round the table
    from the current player, the first seat whose slot is absent or empty
    stops the scoring with a failed result that names that player; no
    trick is counted and the state is left as it was. *)
Theorem ScoreTrick_missing_play (action : Action) (w : World) (s k : nat) (p : Player) :
  current_player w = Some s →
  (s < length (players w))%nat →
  (k < length (players w))%nat →
  (∀ j, (j < k)%nat → is_Some (top_card w ((s + j) `mod` length (players w))%nat)) →
  players w !! ((s + k) `mod` length (players w))%nat = Some p →
  top_card w ((s + k) `mod` length (players w))%nat = None →
  executors.ScoreTrick_execute action w
  = (w, Ret (Some (result false ("Player " +:+ id p +:+
                                 " has not played a card this trick.")))).
Proof.
  intros Hc Hs Hk Hall Hp Htop.
  destruct (plays_from_all w (length (players w)) s 0 k) as [l Hl];
    [intros j Hj; apply Hall; lia|].
  unfold executors.ScoreTrick_execute, executors.ScoreTrick_select, players_index.
  unfold bind at 1 2 3 4 5. unfold gets.
  rewrite Hc. rewrite bool_decide_true by exact Hs.
  replace (seq 0 (length (players w)))
    with (seq 0 k ++ k :: seq (Datatypes.S k) (length (players w) - Datatypes.S k)).
  - rewrite (gather_stops w _ s _ k _ [] l p eq_refl) by (lia || assumption).
    reflexivity.
  - replace (length (players w)) with (k + Datatypes.S (length (players w) - Datatypes.S k))%nat
      at 2 by lia.
    rewrite seq_app. reflexivity.
Qed.

Lemma ScoreTrick_missing_play_witness :
  executors.ScoreTrick_execute Scenario.tick
    (with_slots (<["P1" := mkSlot [mkCard "A" "Hearts"] true]> ∅) Scenario.example_trick)
  = (with_slots (<["P1" := mkSlot [mkCard "A" "Hearts"] true]> ∅) Scenario.example_trick,
     Ret (Some (result false ("Player " +:+ "P2" +:+ " has not played a card this trick.")))).
Proof.
  apply (ScoreTrick_missing_play Scenario.tick
           (with_slots (<["P1" := mkSlot [mkCard "A" "Hearts"] true]> ∅)
              Scenario.example_trick)
           1 1 (mkPlayer "P2" [])).
  - reflexivity.
  - vm_compute. lia.
  - vm_compute. lia.
  - intros j Hj. assert (j = 0%nat) as -> by lia. vm_compute. eexists; reflexivity.
  - reflexivity.
  - vm_compute. reflexivity.
Defined.
